(** * BACnet/IP client: addressing primitives, discovery and read flow

    A shallow embedding of [types.go] (package [bacnet]) and of the
    request flows of [bacip/client.go] (package [bacip]), with the
    properties of the specification stated over it.

    Conventions.
    - Go's fixed-width unsigned integers are [Z] with the wrap-around
      written out ([uint16], [uint32] below).
    - [[]byte] is [list byte]; a nil slice and an empty slice are both [[]].
    - A Go function returning [(T, error)] returns a [result E T]; a call
      that can panic returns an [outcome].
    - Channels, locks and timers are not modelled: a flow takes as inputs
      what its [select] receives (the frames delivered before the timer
      fires, the reply delivered to a pending call) and the outcome of its
      socket writes.
    - A Go [map] is a [gmap]; its iteration order is left unspecified, as in
      Go, and statements about a returned slice built from it are stated on
      membership. *)

From Stdlib Require Import ZArith Lia Strings.Byte.
From stdpp Require Import base decidable countable gmap list strings fin_maps.

Local Open Scope Z_scope.

(** ** Go values *)

Definition uint16 (z : Z) : Z := z mod 2 ^ 16.
Definition uint32 (z : Z) : Z := z mod 2 ^ 32.

(** A Go function returning [(T, error)]: [Ok v] is [(v, nil)], [Err e] is
    a return with a non-nil error [e]. *)
Inductive result (E A : Type) : Type :=
| Ok (a : A)
| Err (e : E).
Arguments Ok {E A} a.
Arguments Err {E A} e.

Definition is_Ok {E A} (r : result E A) : Prop :=
  match r with Ok _ => True | Err _ => False end.
Definition is_Err {E A} (r : result E A) : Prop :=
  match r with Ok _ => False | Err _ => True end.

(** Bytes: the numeric value of a byte and the conversion [byte(z)]. *)
Definition byte_to_Z (b : byte) : Z := Z.of_N (Byte.to_N b).

Definition byte_of_Z (z : Z) : byte :=
  match Byte.of_N (Z.to_N (z mod 256)) with
  | Some b => b
  | None => x00
  end.

(** [len(s)], [s[i]] and [s[i:j]] on slices.  Go panics when an index is out
    of range; every use below sits behind the length checks of the source,
    so the default of [index] is never read (lemmas [index_in_range] and
    [length_slice]). *)
Definition len {A} (s : list A) : Z := Z.of_nat (length s).
Definition index (s : list byte) (i : Z) : byte := nth (Z.to_nat i) s x00.
Definition slice {A} (s : list A) (i j : Z) : list A :=
  take (Z.to_nat (j - i)) (drop (Z.to_nat i) s).

(** ** Package net and encoding/binary of the Go standard library *)
Module net.

Definition IPv4len : Z := 4.
Definition IPv6len : Z := 16.

(** [type IP []byte] *)
Definition IP := list byte.

Record UDPAddr : Type := mkUDPAddr {
  IP_ : IP;
  Port : Z;
  Zone : string;
}.

(** [net.UDPAddr{}] *)
Definition zeroUDPAddr : UDPAddr := {| IP_ := []; Port := 0; Zone := "" |}.

Definition v4InV6Prefix : list byte :=
  [x00; x00; x00; x00; x00; x00; x00; x00; x00; x00; xff; xff].

Definition isZeros (p : list byte) : bool :=
  forallb (fun b => byte_to_Z b =? 0) p.

(** [func (ip IP) To4() IP] *)
Definition To4 (ip : IP) : IP :=
  if len ip =? IPv4len then ip
  else if (len ip =? IPv6len) && isZeros (slice ip 0 10)
          && (byte_to_Z (index ip 10) =? 0xff)
          && (byte_to_Z (index ip 11) =? 0xff)
  then slice ip 12 16
  else [].

(** [func (ip IP) To16() IP] *)
Definition To16 (ip : IP) : IP :=
  if len ip =? IPv4len then v4InV6Prefix ++ ip
  else if len ip =? IPv6len then ip
  else [].

(** [type IPNet struct { IP IP; Mask IPMask }], with [type IPMask []byte] *)
Record IPNet : Type := mkIPNet {
  IPNet_IP : IP;
  Mask : list byte;
}.

End net.

Module binary.

(** [binary.Write(b, binary.BigEndian, port)] for a [uint16]: the two bytes
    appended to the buffer. *)
Definition BigEndian_bytes16 (v : Z) : list byte :=
  [byte_of_Z (Z.shiftr v 8); byte_of_Z v].

(** [binary.BigEndian.Uint16(b)] *)
Definition BigEndian_Uint16 (b : list byte) : Z :=
  Z.lor (byte_to_Z (index b 1)) (uint16 (Z.shiftl (byte_to_Z (index b 0)) 8)).

(** [binary.BigEndian.Uint32(b)]; it reads [b[3]] first, so a slice shorter
    than 4 bytes panics ([None]). *)
Definition BigEndian_Uint32 (b : list byte) : option Z :=
  if len b <? 4 then None
  else Some (Z.lor (Z.lor (Z.lor (byte_to_Z (index b 3))
                                 (uint32 (Z.shiftl (byte_to_Z (index b 2)) 8)))
                          (uint32 (Z.shiftl (byte_to_Z (index b 1)) 16)))
                   (uint32 (Z.shiftl (byte_to_Z (index b 0)) 24))).

(** [binary.BigEndian.PutUint32(b, v)]: the slice after the call; a slice
    shorter than 4 bytes panics ([None]). *)
Definition BigEndian_PutUint32 (b : list byte) (v : Z) : option (list byte) :=
  if len b <? 4 then None
  else Some ([byte_of_Z (Z.shiftr v 24); byte_of_Z (Z.shiftr v 16);
              byte_of_Z (Z.shiftr v 8); byte_of_Z v] ++ drop 4 b).

End binary.

(** ** Package bacnet (types.go) *)
Module bacnet.

Definition MaxInstance : Z := 0x3FFFFF.
Definition instanceBits : Z := 22.
Definition maxObjectType : Z := 0x400.

(** [type ObjectType uint16], [type ObjectInstance uint32] *)
Definition ObjectType := Z.
Definition ObjectInstance := Z.

Definition AnalogInput : ObjectType := 0x00.
Definition BacnetDevice : ObjectType := 0x08.
Definition ProprietaryMin : ObjectType := 0x80.
Definition Proprietarymax : ObjectType := 0x3ff.

Record ObjectID : Type := mkObjectID {
  Type_ : ObjectType;
  Instance : ObjectInstance;
}.

(** The values the Go field types can hold. *)
Definition ObjectID_wf (o : ObjectID) : Prop :=
  0 <= Type_ o < 2 ^ 16 /\ 0 <= Instance o < 2 ^ 32.

(** [func (o ObjectID) Encode() (uint32, error)] *)
Definition Encode (o : ObjectID) : result string Z :=
  if MaxInstance <? Instance o then
    Err "invalid ObjectID: instance too high"
  else if maxObjectType <? Type_ o then
    Err "invalid ObjectID: objectType too high too high"
  else
    Ok (Z.lor (uint32 (Z.shiftl (uint32 (Type_ o)) instanceBits))
              (uint32 (Instance o))).

(** [func ObjectIDFromUint32(v uint32) ObjectID] *)
Definition ObjectIDFromUint32 (v : Z) : ObjectID :=
  {| Type_ := uint16 (Z.shiftr v instanceBits);
     Instance := uint32 (Z.land v MaxInstance) |}.

(** [type SegmentationSupport byte] *)
Definition SegmentationSupport := Z.
Definition SegmentationSupportBoth : SegmentationSupport := 0x00.
Definition SegmentationSupportTransmit : SegmentationSupport := 0x01.
Definition SegmentationSupportReceive : SegmentationSupport := 0x02.
Definition SegmentationSupportNone : SegmentationSupport := 0x03.

Record Address : Type := mkAddress {
  Mac : list byte;
  Net : Z;
  Adr : list byte;
}.

Record Device : Type := mkDevice {
  ID : ObjectID;
  MaxApdu : Z;
  Segmentation : SegmentationSupport;
  Vendor : Z;
  Addr : Address;
}.

(** [func AddressFromUDP(udp net.UDPAddr) *Address] *)
Definition AddressFromUDP (udp : net.UDPAddr) : Address :=
  let b :=
    if len (net.IP_ udp) =? net.IPv4len
    then [x04] ++ net.To4 (net.IP_ udp)
    else [x10] ++ net.To16 (net.IP_ udp) in
  let port := uint16 (net.Port udp) in
  {| Mac := b ++ binary.BigEndian_bytes16 port; Net := 0; Adr := [] |}.

(** [func UDPFromAddress(addr Address) net.UDPAddr] *)
Definition UDPFromAddress (addr : Address) : net.UDPAddr :=
  if len (Mac addr) <? 2 then net.zeroUDPAddr
  else
    let ipLen := byte_to_Z (index (Mac addr) 0) in
    if negb (ipLen =? 4) && negb (ipLen =? 16) then net.zeroUDPAddr
    else if len (Mac addr) <? 1 + ipLen + 2 then net.zeroUDPAddr
    else
      let ip := slice (Mac addr) 1 (1 + ipLen) in
      let port :=
        binary.BigEndian_Uint16 (slice (Mac addr) (1 + ipLen) (1 + ipLen + 2)) in
      {| net.IP_ := ip; net.Port := port; net.Zone := "" |}.

(** [type PropertyIdentifier struct]; [PropertyType] is an enumerated
    number. *)
Record PropertyIdentifier : Type := mkPropertyIdentifier {
  PropertyType_ : Z;
  ArrayIndex : option Z;
}.

End bacnet.

(** ** Package bacip (bacip/client.go) *)
Module bacip.

(** *** Protocol data units *)

(** Modelled from the spec: the APDU data-type class, a closed enumeration
    (data model, "APDU"); its declaration is outside the files embedded
    here.  The constructor names are the constants [client.go] uses. *)
Inductive PDUType : Type :=
| ConfirmedServiceRequest
| UnconfirmedServiceRequest
| SimpleAck
| ComplexAck
| SegmentAck
| Error
| Reject
| Abort.

(** Modelled from the spec: the service selector, restricted to the
    implemented set (who-is, i-am, read-property, write-property). *)
Inductive ServiceType : Type :=
| ServiceUnconfirmedIAm
| ServiceUnconfirmedWhoIs
| ServiceConfirmedReadProperty
| ServiceConfirmedWriteProperty.

#[export] Instance PDUType_eq_dec : EqDecision PDUType.
Proof. solve_decision. Defined.
#[export] Instance ServiceType_eq_dec : EqDecision ServiceType.
Proof. solve_decision. Defined.

(** Modelled from the spec: a decoded application-layer value (TLV codec:
    null, unsigned, signed, real, string, enumerated, object-id,
    bit-string, date, time), the dynamic content of [ReadProperty.Data].
    A real is kept as its IEEE-754 single bit pattern. *)
Inductive Value : Type :=
| Null
| Unsigned (n : Z)
| Signed (z : Z)
| Real (bits : Z)
| CharacterString (s : string)
| Enumerated (n : Z)
| ObjectIdentifier (o : bacnet.ObjectID)
| BitString (bits : list bool)
| Date (raw : list byte)
| TimeOfDay (raw : list byte).

(** Modelled from the spec: the WhoIs payload with its optional instance
    range; [Low] and [High] are pointers in the source ([data.Low != nil]),
    holding instance numbers. *)
Record WhoIs : Type := mkWhoIs {
  Low : option Z;
  High : option Z;
}.

(** Modelled from the spec: the IAm payload (ObjectID, max-APDU,
    segmentation-support, vendor-id), with the field names [client.go]
    reads. *)
Record Iam : Type := mkIam {
  ObjectID : bacnet.ObjectID;
  MaxApduLength : Z;
  SegmentationSupport : bacnet.SegmentationSupport;
  VendorID : Z;
}.

(** Modelled from the spec: the ReadProperty request/response payload; the
    response carries the decoded value in [Data]. *)
Record ReadProperty : Type := mkReadProperty {
  RP_ObjectID : bacnet.ObjectID;
  RP_Property : bacnet.PropertyIdentifier;
  Data : Value;
}.

(** Modelled from the spec: the WriteProperty request payload. *)
Record WriteProperty : Type := mkWriteProperty {
  WP_ObjectID : bacnet.ObjectID;
  WP_Property : bacnet.PropertyIdentifier;
  WP_Value : Value;
}.

(** Modelled from the spec: the Error payload, two enumerateds
    (error-class, error-code). *)
Record ApduError : Type := mkApduError {
  Class : Z;
  Code : Z;
}.

(** Modelled from the spec: the APDU payload, "one of a closed set of
    service-specific messages".  In the source it is an interface value
    read through type assertions (to [*Iam], [*ApduError], ...), so it
    carries its dynamic type and may be nil. *)
Inductive Payload : Type :=
| PayloadNil
| PayloadWhoIs (p : WhoIs)
| PayloadIam (p : Iam)
| PayloadReadProperty (p : ReadProperty)
| PayloadWriteProperty (p : WriteProperty)
| PayloadApduError (p : ApduError).

(** What [%T] prints for a payload. *)
Definition typeName (p : Payload) : string :=
  match p with
  | PayloadNil => "<nil>"
  | PayloadWhoIs _ => "*bacip.WhoIs"
  | PayloadIam _ => "*bacip.Iam"
  | PayloadReadProperty _ => "*bacip.ReadProperty"
  | PayloadWriteProperty _ => "*bacip.WriteProperty"
  | PayloadApduError _ => "*bacip.ApduError"
  end.

(** Modelled from the spec: the APDU, with the fields [client.go] reads and
    writes. *)
Record APDU : Type := mkAPDU {
  DataType : PDUType;
  ServiceType_ : ServiceType;
  InvokeID : Z;
  Payload_ : Payload;
}.

(** Modelled from the spec: NPDU priority. *)
Inductive NPDUPriority : Type :=
| Normal | Urgent | CriticalEquipment | LifeSafety.

(** Modelled from the spec: the NPDU, with optional destination and source
    specifiers and an optional APDU (nil pointers in the source). *)
Record NPDU : Type := mkNPDU {
  Version : Z;
  IsNetworkLayerMessage : bool;
  ExpectingReply : bool;
  Priority : NPDUPriority;
  Destination : option bacnet.Address;
  Source : option bacnet.Address;
  HopCount : Z;
  ADPU : option APDU;
}.

Definition Version1 : Z := 1.

(** Modelled from the spec: the BVLC link envelope. *)
Inductive BVLCFunction : Type :=
| BacFuncUnicast | BacFuncBroadcast | BacFuncForwardedNPDU
| BacFuncRegisterForeignDevice.

Record BVLC : Type := mkBVLC {
  BVLC_Type : Z;
  Function_ : BVLCFunction;
  NPDU_ : NPDU;
}.

Definition TypeBacnetIP : Z := 0x81.
Definition DefaultUDPPort : Z := 47808.

(** *** Errors *)

(** The error values the client returns: message errors ([errors.New],
    [fmt.Errorf]), an [ApduError] used as an error, the error of a done
    context ([ctx.Err()]) and errors of the UDP socket. *)
Inductive error : Type :=
| errorString (msg : string)
| errorApdu (e : ApduError)
| errorContext (msg : string)
| errorSocket (msg : string).

(** A call either returns or panics (a failed type assertion). *)
Inductive outcome (A : Type) : Type :=
| Return (r : result error A)
| Panic.
Arguments Return {A} r.
Arguments Panic {A}.

(** *** The client *)

Record Client : Type := mkClient {
  ipAddress : net.IP;
  broadcastAddress : net.IP;
  udpPort : Z;
}.

(** The keys of the deduplication map of [WhoIs] are [Iam] structs,
    compared field by field. *)
#[export] Instance ObjectID_eq_dec : EqDecision bacnet.ObjectID.
Proof. solve_decision. Defined.
#[export] Instance Iam_eq_dec : EqDecision Iam.
Proof. solve_decision. Defined.

Definition Iam_to_tuple (i : Iam) : Z * Z * Z * Z * Z :=
  (bacnet.Type_ (ObjectID i), bacnet.Instance (ObjectID i),
   MaxApduLength i, SegmentationSupport i, VendorID i).
Definition Iam_of_tuple (t : Z * Z * Z * Z * Z) : Iam :=
  let '(ty, inst, m, s, v) := t in
  {| ObjectID := {| bacnet.Type_ := ty; bacnet.Instance := inst |};
     MaxApduLength := m; SegmentationSupport := s; VendorID := v |}.

#[export] Instance Iam_countable : Countable Iam.
Proof.
  refine (inj_countable' Iam_to_tuple Iam_of_tuple _).
  intros [[ty inst] m s v]. reflexivity.
Defined.

(** *** Discovery: [func (c *Client) WhoIs(data WhoIs, timeout time.Duration)] *)

(** The NPDU that is broadcast. *)
Definition WhoIs_npdu (data : WhoIs) : NPDU :=
  {| Version := Version1;
     IsNetworkLayerMessage := false;
     ExpectingReply := false;
     Priority := Normal;
     Destination := None;
     Source := None;
     HopCount := 0;
     ADPU := Some {| DataType := UnconfirmedServiceRequest;
                     ServiceType_ := ServiceUnconfirmedWhoIs;
                     InvokeID := 0;
                     Payload_ := PayloadWhoIs data |} |}.

(** One turn of the loop on the branch [case r := <-rChan]: the frame [r]
    with its UDP source, and the set so far.  [Err] is the early
    [return nil, fmt.Errorf(...)]. *)
Definition WhoIs_receive (data : WhoIs) (set : gmap Iam bacnet.Address)
    (r : BVLC * net.UDPAddr) : result error (gmap Iam bacnet.Address) :=
  match ADPU (NPDU_ r.1) with
  | None => Ok set
  | Some apdu =>
    if bool_decide (DataType apdu = UnconfirmedServiceRequest)
       && bool_decide (ServiceType_ apdu = ServiceUnconfirmedIAm) then
      match Payload_ apdu with
      | PayloadIam iam =>
        match High data, Low data with
        | Some high, Some low =>
          if (low <=? bacnet.Instance (ObjectID iam))
             && (bacnet.Instance (ObjectID iam) <=? high)
          then Ok (<[iam := bacnet.AddressFromUDP r.2]> set)
          else Ok set
        | _, _ => Ok (<[iam := bacnet.AddressFromUDP r.2]> set)
        end
      | p => Err (errorString ("unexpected payload type " +:+ typeName p))
      end
    else Ok set
  end.

(** The loop over the frames received before the timer fires. *)
Fixpoint WhoIs_loop (data : WhoIs) (set : gmap Iam bacnet.Address)
    (frames : list (BVLC * net.UDPAddr))
  : result error (gmap Iam bacnet.Address) :=
  match frames with
  | [] => Ok set
  | r :: frames' =>
    match WhoIs_receive data set r with
    | Ok set' => WhoIs_loop data set' frames'
    | Err e => Err e
    end
  end.

(** The branch [case <-timer.C]: the slice built from the set. *)
Definition WhoIs_result (set : gmap Iam bacnet.Address) : list bacnet.Device :=
  (fun '(iam, addr) =>
     {| bacnet.ID := ObjectID iam;
        bacnet.MaxApdu := MaxApduLength iam;
        bacnet.Segmentation := SegmentationSupport iam;
        bacnet.Vendor := VendorID iam;
        bacnet.Addr := addr |}) <$> map_to_list set.

(** [WhoIs]: [broadcast] is the outcome of [c.broadcast(npdu)] on the
    socket (bytes written, or the error of marshalling or writing);
    [frames] are the frames the subscription delivers on [rChan] before the
    timer fires, each with the UDP source of its datagram. *)
Definition WhoIs_ (broadcast : NPDU -> result error Z) (data : WhoIs)
    (frames : list (BVLC * net.UDPAddr)) : result error (list bacnet.Device) :=
  match broadcast (WhoIs_npdu data) with
  | Err err => Err err
  | Ok _ =>
    match WhoIs_loop data ∅ frames with
    | Err err => Err err
    | Ok set => Ok (WhoIs_result set)
    end
  end.

(** *** [func (c *Client) ReadProperty(ctx, device, readProp)] *)

Definition ReadProperty_npdu (c : Client) (invokeID : Z)
    (device : bacnet.Device) (readProp : ReadProperty) : NPDU :=
  {| Version := Version1;
     IsNetworkLayerMessage := false;
     ExpectingReply := true;
     Priority := Normal;
     Destination := Some (bacnet.Addr device);
     Source := Some (bacnet.AddressFromUDP
                       {| net.IP_ := ipAddress c; net.Port := udpPort c;
                          net.Zone := "" |});
     HopCount := 255;
     ADPU := Some {| DataType := ConfirmedServiceRequest;
                     ServiceType_ := ServiceConfirmedReadProperty;
                     InvokeID := invokeID;
                     Payload_ := PayloadReadProperty readProp |} |}.

(** The branch [case apdu := <-rChan] of the final [select]: what the call
    does with a delivered reply.  A type assertion to [*T] without the [ok]
    result panics when the dynamic type of the value is not [*T]. *)
Definition ReadProperty_reply (apdu : APDU) : outcome Value :=
  if bool_decide (DataType apdu = Error) then
    match Payload_ apdu with
    | PayloadApduError e => Return (Err (errorApdu e))
    | _ => Panic
    end
  else if bool_decide (DataType apdu = ComplexAck)
          && bool_decide (ServiceType_ apdu = ServiceConfirmedReadProperty) then
    match Payload_ apdu with
    | PayloadReadProperty rp => Return (Ok (Data rp))
    | _ => Panic
    end
  else Return (Err (errorString "invalid answer")).

(** What the final [select] takes: a delivered reply, or the context done
    with its error. *)
Inductive selected : Type :=
| Delivered (apdu : APDU)
| CtxDone (err : error).

(** [ReadProperty]: [invokeID] is what [c.transactions.GetID()] returned,
    [send] the outcome of [c.send(npdu)], [sel] the branch the [select]
    takes. *)
Definition ReadProperty_ (c : Client) (send : NPDU -> result error Z)
    (invokeID : Z) (device : bacnet.Device) (readProp : ReadProperty)
    (sel : selected) : outcome Value :=
  match send (ReadProperty_npdu c invokeID device readProp) with
  | Err err => Return (Err err)
  | Ok _ =>
    match sel with
    | Delivered apdu => ReadProperty_reply apdu
    | CtxDone err => Return (Err err)
    end
  end.

(** *** [func broadcastAddr(n *net.IPNet) (net.IP, error)] *)

(** [^x] on a [uint32]. *)
Definition not32 (x : Z) : Z := uint32 (Z.lnot x).

Definition broadcastAddr (n : net.IPNet) : outcome net.IP :=
  match net.To4 (net.IPNet_IP n) with
  | [] => Return (Err (errorString "does not support IPv6 addresses"))
  | ip4 =>
    let ip := replicate (length ip4) x00 in
    match binary.BigEndian_Uint32 ip4,
          binary.BigEndian_Uint32 (net.To4 (net.Mask n)) with
    | Some a, Some m =>
      match binary.BigEndian_PutUint32 ip (Z.lor a (not32 m)) with
      | Some ip' => Return (Ok ip')
      | None => Panic
      end
    | _, _ => Panic
    end
  end.

(** *** [func (c *Client) tryParse(cidr string) bool] *)

(** [ParseCIDR] is [net.ParseCIDR]; the result is the client after the call
    and the returned boolean, [None] when [broadcastAddr] panics. *)
Definition tryParse
    (ParseCIDR : string -> result error (net.IP * net.IPNet))
    (c : Client) (cidr : string) : option (Client * bool) :=
  match ParseCIDR cidr with
  | Err _ => Some (c, false)
  | Ok (ip, ipnet) =>
    match net.To4 ip with
    | [] => Some (c, false)
    | ip4 =>
      match broadcastAddr ipnet with
      | Panic => None
      | Return (Err _) => Some (c, false)
      | Return (Ok broadcast) =>
        Some ({| ipAddress := ip4; broadcastAddress := broadcast;
                 udpPort := udpPort c |}, true)
      end
    end
  end.

(** *** [func (c *Client) handleMessage(src *net.UDPAddr, b []byte) error] *)

(** Modelled from the spec: the errors of the frame decoder
    ([bvlc.UnmarshalBinary], outside the files embedded here):
    not-bacnet-ip, truncated, unknown-service.  [errors.Is(err,
    ErrNotBAcnetIP)] holds of the first one only. *)
Inductive UnmarshalError : Type :=
| ErrNotBAcnetIP
| ErrTruncated
| ErrUnknownService.

(** Modelled from the spec: a registered transaction (reply sink and
    cancellation token of a waiting caller).  It records which branch the
    [select] of [handleMessage] takes on it: the send on the sink proceeds,
    or the token is done with its error. *)
Inductive Transaction : Type :=
| TxReceiving
| TxDone (err : error).

(** What [handleMessage] does besides returning: a line logged, the
    subscription callback called, a reply sent on a transaction's sink. *)
Inductive action : Type :=
| LogInfo (n : NPDU)
| Notify (bvlc : BVLC) (src : net.UDPAddr)
| Deliver (invokeID : Z) (apdu : APDU).

(** The errors [handleMessage] returns: the decoder's error, "no
    transaction found for id %d", "handler for tx %d: %w". *)
Inductive handleError : Type :=
| HandleUnmarshal (e : UnmarshalError)
| HandleNoTransaction (invokeID : Z)
| HandleTx (invokeID : Z) (err : error).

(** [subscribed] is [c.subscriptions.f != nil]; [transactions] is the
    registry read by [c.transactions.GetTransaction]; [bvlc] and [err] are
    the frame and the error [bvlc.UnmarshalBinary(b)] leaves. *)
Definition handleMessage (subscribed : bool)
    (transactions : gmap Z Transaction) (src : net.UDPAddr)
    (bvlc : BVLC) (err : option UnmarshalError)
  : list action * option handleError :=
  match err with
  | Some ErrNotBAcnetIP => ([], Some (HandleUnmarshal ErrNotBAcnetIP))
  | _ =>
    match ADPU (NPDU_ bvlc) with
    | None => ([LogInfo (NPDU_ bvlc)], None)
    | Some apdu =>
      let notified := if subscribed then [Notify bvlc src] else [] in
      if bool_decide (DataType apdu = ComplexAck)
         || bool_decide (DataType apdu = SimpleAck)
         || bool_decide (DataType apdu = Error) then
        let invokeID := InvokeID apdu in
        match transactions !! invokeID with
        | None => (notified, Some (HandleNoTransaction invokeID))
        | Some TxReceiving => (notified ++ [Deliver invokeID apdu], None)
        | Some (TxDone e) => (notified, Some (HandleTx invokeID e))
        end
      else (notified, None)
    end
  end.

(** *** [func (c *Client) send(npdu NPDU) (int, error)] and [broadcast] *)

(** [MarshalBinary] is [BVLC.MarshalBinary] and [WriteToUDP] the write on
    the client's socket; the result is the list of datagrams handed to the
    socket with their destinations, and what the call returns. *)
Definition send (MarshalBinary : BVLC -> result error (list byte))
    (WriteToUDP : list byte -> net.UDPAddr -> result error Z) (npdu : NPDU)
  : list (list byte * net.UDPAddr) * result error Z :=
  match MarshalBinary {| BVLC_Type := TypeBacnetIP;
                         Function_ := BacFuncUnicast;
                         NPDU_ := npdu |} with
  | Err err => ([], Err err)
  | Ok bytes =>
    match Destination npdu with
    | None =>
      ([], Err (errorString
                  "destination bacnet address should be not nil to send unicast"))
    | Some dest =>
      let addr := bacnet.UDPFromAddress dest in
      ([(bytes, addr)], WriteToUDP bytes addr)
    end
  end.

Definition broadcast (c : Client)
    (MarshalBinary : BVLC -> result error (list byte))
    (WriteToUDP : list byte -> net.UDPAddr -> result error Z) (npdu : NPDU)
  : list (list byte * net.UDPAddr) * result error Z :=
  match MarshalBinary {| BVLC_Type := TypeBacnetIP;
                         Function_ := BacFuncBroadcast;
                         NPDU_ := npdu |} with
  | Err err => ([], Err err)
  | Ok bytes =>
    let addr := {| net.IP_ := broadcastAddress c; net.Port := DefaultUDPPort;
                   net.Zone := "" |} in
    ([(bytes, addr)], WriteToUDP bytes addr)
  end.

(** *** [func (c *Client) WriteProperty(ctx, device, writeProp) error] *)

Definition WriteProperty_npdu (c : Client) (invokeID : Z)
    (device : bacnet.Device) (writeProp : WriteProperty) : NPDU :=
  {| Version := Version1;
     IsNetworkLayerMessage := false;
     ExpectingReply := true;
     Priority := Normal;
     Destination := Some (bacnet.Addr device);
     Source := Some (bacnet.AddressFromUDP
                       {| net.IP_ := ipAddress c; net.Port := udpPort c;
                          net.Zone := "" |});
     HopCount := 255;
     ADPU := Some {| DataType := ConfirmedServiceRequest;
                     ServiceType_ := ServiceConfirmedWriteProperty;
                     InvokeID := invokeID;
                     Payload_ := PayloadWriteProperty writeProp |} |}.

(** The branch [case apdu := <-rChan]; [Return (Ok tt)] is [return nil]. *)
Definition WriteProperty_reply (apdu : APDU) : outcome unit :=
  if bool_decide (DataType apdu = Error) then
    match Payload_ apdu with
    | PayloadApduError e => Return (Err (errorApdu e))
    | _ => Panic
    end
  else if bool_decide (DataType apdu = SimpleAck) then Return (Ok tt)
  else Return (Err (errorString "invalid answer")).

Definition WriteProperty_ (c : Client) (send : NPDU -> result error Z)
    (invokeID : Z) (device : bacnet.Device) (writeProp : WriteProperty)
    (sel : selected) : outcome unit :=
  match send (WriteProperty_npdu c invokeID device writeProp) with
  | Err err => Return (Err err)
  | Ok _ =>
    match sel with
    | Delivered apdu => WriteProperty_reply apdu
    | CtxDone err => Return (Err err)
    end
  end.

End bacip.

(** ** Bitwise operations on bytes *)

Definition byte_or (a b : byte) : byte :=
  byte_of_Z (Z.lor (byte_to_Z a) (byte_to_Z b)).
Definition byte_and (a b : byte) : byte :=
  byte_of_Z (Z.land (byte_to_Z a) (byte_to_Z b)).
Definition byte_not (a : byte) : byte := byte_of_Z (Z.lnot (byte_to_Z a)).

(** ** Notions of the specification *)
Module spec.

(** An Address whose MAC "is too short (shorter than 1 + length-tag + 2
    bytes) or whose first byte is neither 4 nor 16"; an empty MAC has no
    tag and is too short. *)
Definition malformed_address (addr : bacnet.Address) : bool :=
  match bacnet.Mac addr with
  | [] => true
  | tag :: _ =>
    (len (bacnet.Mac addr) <? 1 + byte_to_Z tag + 2)
    || (negb (byte_to_Z tag =? 4) && negb (byte_to_Z tag =? 16))
  end.

(** The addressing errors of the specification's taxonomy. *)
Inductive AddressError : Type :=
| MalformedAddress
| MissingDestination.

(** [UDPFromAddress] seen as a fallible call.  Its Go signature has the
    single result [net.UDPAddr] and no [error], so every call returns
    normally with a value. *)
Definition UDPFromAddress_call (addr : bacnet.Address)
  : result AddressError net.UDPAddr :=
  Ok (bacnet.UDPFromAddress addr).

(** The IAm record a frame announces, when its APDU is classified
    (unconfirmed-request, i-am) and its payload is an IAm. *)
Definition announced (r : bacip.BVLC * net.UDPAddr) : option bacip.Iam :=
  match bacip.ADPU (bacip.NPDU_ r.1) with
  | Some apdu =>
    match bacip.DataType apdu, bacip.ServiceType_ apdu, bacip.Payload_ apdu with
    | bacip.UnconfirmedServiceRequest, bacip.ServiceUnconfirmedIAm,
      bacip.PayloadIam iam => Some iam
    | _, _, _ => None
    end
  | None => None
  end.

(** A frame classified (unconfirmed-request, i-am) whose payload is not an
    IAm. *)
Definition unexpected_payload (r : bacip.BVLC * net.UDPAddr) : bool :=
  match bacip.ADPU (bacip.NPDU_ r.1) with
  | Some apdu =>
    match bacip.DataType apdu, bacip.ServiceType_ apdu, bacip.Payload_ apdu with
    | bacip.UnconfirmedServiceRequest, bacip.ServiceUnconfirmedIAm,
      bacip.PayloadIam _ => false
    | bacip.UnconfirmedServiceRequest, bacip.ServiceUnconfirmedIAm, _ => true
    | _, _, _ => false
    end
  | None => false
  end.

(** The IAm record a returned device was built from. *)
Definition Iam_of_device (d : bacnet.Device) : bacip.Iam :=
  {| bacip.ObjectID := bacnet.ID d;
     bacip.MaxApduLength := bacnet.MaxApdu d;
     bacip.SegmentationSupport := bacnet.Segmentation d;
     bacip.VendorID := bacnet.Vendor d |}.

(** An announced IAm is kept: some returned device carries its fields. *)
Definition kept (iam : bacip.Iam) (devices : list bacnet.Device) : Prop :=
  exists d, d ∈ devices /\ Iam_of_device d = iam.

(** The instance range of a WhoIs request, when one was supplied (both
    bounds present). *)
Definition range (data : bacip.WhoIs) : option (Z * Z) :=
  match bacip.Low data, bacip.High data with
  | Some low, Some high => Some (low, high)
  | _, _ => None
  end.

(** An instance passes the range filter: inside [[low, high]] when a range
    was supplied, always otherwise. *)
Definition in_range (data : bacip.WhoIs) (iam : bacip.Iam) : bool :=
  match range data with
  | Some (low, high) =>
    (low <=? bacnet.Instance (bacip.ObjectID iam))
    && (bacnet.Instance (bacip.ObjectID iam) <=? high)
  | None => true
  end.

(** A reply whose payload has the dynamic type its classification calls
    for: an error payload under data-type error, a read-property payload
    under (complex-ack, read-property). *)
Definition reply_payload_matches (apdu : bacip.APDU) : Prop :=
  match bacip.DataType apdu, bacip.ServiceType_ apdu with
  | bacip.Error, _ =>
    exists e, bacip.Payload_ apdu = bacip.PayloadApduError e
  | bacip.ComplexAck, bacip.ServiceConfirmedReadProperty =>
    exists rp, bacip.Payload_ apdu = bacip.PayloadReadProperty rp
  | _, _ => True
  end.

(** The three data-types [handleMessage] treats as replies. *)
Definition is_reply (apdu : bacip.APDU) : Prop :=
  bacip.DataType apdu = bacip.ComplexAck \/
  bacip.DataType apdu = bacip.SimpleAck \/
  bacip.DataType apdu = bacip.Error.

(** A frame the discovery loop looks into: it carries an APDU classified
    (unconfirmed-request, i-am). *)
Definition classified_IAm (r : bacip.BVLC * net.UDPAddr) : bool :=
  match bacip.ADPU (bacip.NPDU_ r.1) with
  | Some apdu =>
    match bacip.DataType apdu, bacip.ServiceType_ apdu with
    | bacip.UnconfirmedServiceRequest, bacip.ServiceUnconfirmedIAm => true
    | _, _ => false
    end
  | None => false
  end.

(** The device built from an IAm record and an address. *)
Definition device_of (iam : bacip.Iam) (addr : bacnet.Address) : bacnet.Device :=
  {| bacnet.ID := bacip.ObjectID iam;
     bacnet.MaxApdu := bacip.MaxApduLength iam;
     bacnet.Segmentation := bacip.SegmentationSupport iam;
     bacnet.Vendor := bacip.VendorID iam;
     bacnet.Addr := addr |}.

(** The same frame with another NPDU source specifier. *)
Definition with_Source (s : option bacnet.Address)
    (r : bacip.BVLC * net.UDPAddr) : bacip.BVLC * net.UDPAddr :=
  let n := bacip.NPDU_ r.1 in
  ({| bacip.BVLC_Type := bacip.BVLC_Type r.1;
      bacip.Function_ := bacip.Function_ r.1;
      bacip.NPDU_ :=
        {| bacip.Version := bacip.Version n;
           bacip.IsNetworkLayerMessage := bacip.IsNetworkLayerMessage n;
           bacip.ExpectingReply := bacip.ExpectingReply n;
           bacip.Priority := bacip.Priority n;
           bacip.Destination := bacip.Destination n;
           bacip.Source := s;
           bacip.HopCount := bacip.HopCount n;
           bacip.ADPU := bacip.ADPU n |} |}, r.2).

End spec.

(** ** The literal inputs of the specification's scenarios *)
Module scenario.

Import bacip.

(** A frame classified (unconfirmed-request, i-am) with payload [p] and
    NPDU source specifier [s], received from [192.0.2.host:47808]. *)
Definition frame (p : Payload) (s : option bacnet.Address) (host : byte)
  : BVLC * net.UDPAddr :=
  ({| BVLC_Type := TypeBacnetIP;
      Function_ := BacFuncBroadcast;
      NPDU_ := {| Version := Version1;
                  IsNetworkLayerMessage := false;
                  ExpectingReply := false;
                  Priority := Normal;
                  Destination := None;
                  Source := s;
                  HopCount := 0;
                  ADPU := Some {| DataType := UnconfirmedServiceRequest;
                                  ServiceType_ := ServiceUnconfirmedIAm;
                                  InvokeID := 0;
                                  Payload_ := p |} |} |},
   {| net.IP_ := [xc0; x00; x02; host]; net.Port := DefaultUDPPort;
      net.Zone := "" |}).

(** Device (type 8, instance [inst], vendor 260, max-APDU 1476,
    segmentation both). *)
Definition iam (inst : Z) : Iam :=
  {| ObjectID := {| bacnet.Type_ := bacnet.BacnetDevice;
                    bacnet.Instance := inst |};
     MaxApduLength := 1476;
     SegmentationSupport := bacnet.SegmentationSupportBoth;
     VendorID := 260 |}.

Definition device (inst : Z) (host : byte) : bacnet.Device :=
  {| bacnet.ID := {| bacnet.Type_ := bacnet.BacnetDevice;
                     bacnet.Instance := inst |};
     bacnet.MaxApdu := 1476;
     bacnet.Segmentation := bacnet.SegmentationSupportBoth;
     bacnet.Vendor := 260;
     bacnet.Addr := {| bacnet.Mac := [x04; xc0; x00; x02; host; xba; xc0];
                       bacnet.Net := 0; bacnet.Adr := [] |} |}.

(** The address of a device behind a router on network 7. *)
Definition routed : bacnet.Address :=
  {| bacnet.Mac := [x04; x0a; x00; x00; x01; xba; xc0];
     bacnet.Net := 7; bacnet.Adr := [x2a] |}.

(** A socket on which every write succeeds, and one on which it fails. *)
Definition socket_ok (n : NPDU) : result error Z := Ok 12.
Definition socket_closed (n : NPDU) : result error Z :=
  Err (errorSocket "use of closed network connection").

Definition no_range : WhoIs := {| Low := None; High := None |}.
Definition range_100_200 : WhoIs := {| Low := Some 100; High := Some 200 |}.

End scenario.

(** * Properties *)

(** ** ObjectID packing *)
Section ObjectID_packing.

Import bacnet.

Lemma MaxInstance_ones : MaxInstance = Z.ones 22.
Proof. reflexivity. Qed.

Lemma uint32_small (z : Z) : 0 <= z < 2 ^ 32 -> uint32 z = z.
Proof. intros Hz. unfold uint32. apply Z.mod_small, Hz. Qed.

Lemma uint16_small (z : Z) : 0 <= z < 2 ^ 16 -> uint16 z = z.
Proof. intros Hz. unfold uint16. apply Z.mod_small, Hz. Qed.

(** The low 22 bits of a shifted type are clear, so the [|] of [Encode]
    is an addition. *)
Lemma pack_disjoint (t i : Z) :
  0 <= i < 2 ^ 22 -> Z.land (Z.shiftl t 22) i = 0.
Proof.
  intros Hi. apply Z.bits_inj'; intros n Hn.
  rewrite Z.land_spec, Z.bits_0.
  destruct (Z.ltb_spec n 22) as [Hlt | Hge].
  - rewrite Z.shiftl_spec_low by lia. reflexivity.
  - destruct (Z.eq_dec i 0) as [-> | Hne].
    + rewrite Z.bits_0. apply andb_false_r.
    + rewrite (Z.bits_above_log2 i n), andb_false_r; [reflexivity | lia |].
      apply Z.lt_le_trans with 22; [| lia].
      apply Z.log2_lt_pow2; lia.
Qed.

Lemma pack_add (t i : Z) :
  0 <= i < 2 ^ 22 -> Z.lor (Z.shiftl t 22) i = t * 2 ^ 22 + i.
Proof.
  intros Hi. rewrite <- Z.shiftl_mul_pow2 by lia.
  rewrite <- Z.lxor_lor, <- Z.add_nocarry_lxor;
    auto using pack_disjoint.
Qed.

Lemma unpack_type (t i : Z) :
  0 <= i < 2 ^ 22 -> Z.shiftr (t * 2 ^ 22 + i) 22 = t.
Proof.
  intros Hi. rewrite Z.shiftr_div_pow2 by lia.
  rewrite Z.div_add_l by lia. rewrite Z.div_small by lia. lia.
Qed.

Lemma unpack_instance (t i : Z) :
  0 <= i < 2 ^ 22 -> Z.land (t * 2 ^ 22 + i) MaxInstance = i.
Proof.
  intros Hi. rewrite MaxInstance_ones, Z.land_ones by lia.
  rewrite Z.add_comm, Z.mod_add by lia. apply Z.mod_small, Hi.
Qed.

(** When the two guards of [Encode] pass on in-range fields. *)
Lemma Encode_in_bounds (t i : Z) :
  0 <= t < 2 ^ 10 -> 0 <= i < 2 ^ 22 ->
  Encode {| Type_ := t; Instance := i |} = Ok (t * 2 ^ 22 + i).
Proof.
  intros Ht Hi. unfold Encode, MaxInstance, maxObjectType, instanceBits.
  cbn [Type_ Instance].
  destruct (Z.ltb_spec 4194303 i) as [Hbad | _]; [lia |].
  destruct (Z.ltb_spec 1024 t) as [Hbad | _]; [lia |].
  rewrite (uint32_small t) by lia.
  rewrite (uint32_small i) by lia.
  rewrite uint32_small.
  - now rewrite pack_add.
  - rewrite Z.shiftl_mul_pow2 by lia. lia.
Qed.

(** [Encode] fails exactly on the two guards of the source. *)
Lemma Encode_Err_iff (o : ObjectID) :
  is_Err (Encode o) <-> MaxInstance < Instance o \/ maxObjectType < Type_ o.
Proof.
  unfold Encode.
  destruct (Z.ltb_spec MaxInstance (Instance o));
    destruct (Z.ltb_spec maxObjectType (Type_ o)); simpl; intuition lia.
Qed.

(** C1. For every type [t < 2^10] and instance [i < 2^22], [Encode] on
    the ObjectID [(t, i)] succeeds with a 32-bit value whose high 10 bits
    are [t] and whose low 22 bits are [i], and [ObjectIDFromUint32] on
    that value gives back exactly [(t, i)]. *)
Theorem ObjectID_pack_unpack (t i : Z) :
  0 <= t < 2 ^ 10 -> 0 <= i < 2 ^ 22 ->
  exists v,
    Encode {| Type_ := t; Instance := i |} = Ok v /\
    0 <= v < 2 ^ 32 /\
    Z.shiftr v 22 = t /\ Z.land v (Z.ones 22) = i /\
    ObjectIDFromUint32 v = {| Type_ := t; Instance := i |}.
Proof.
  intros Ht Hi. exists (t * 2 ^ 22 + i).
  split; [now apply Encode_in_bounds |].
  split; [lia |].
  split; [now apply unpack_type |].
  split; [rewrite <- MaxInstance_ones; now apply unpack_instance |].
  unfold ObjectIDFromUint32, instanceBits.
  rewrite unpack_type, unpack_instance by assumption.
  rewrite uint16_small, uint32_small by lia. reflexivity.
Qed.

Lemma ObjectID_pack_unpack_witness :
  exists v,
    Encode {| Type_ := BacnetDevice; Instance := 1234 |} = Ok v /\
    0 <= v < 2 ^ 32 /\
    Z.shiftr v 22 = BacnetDevice /\ Z.land v (Z.ones 22) = 1234 /\
    ObjectIDFromUint32 v = {| Type_ := BacnetDevice; Instance := 1234 |}.
Proof. apply (ObjectID_pack_unpack BacnetDevice 1234); unfold BacnetDevice; lia. Defined.

(** C2 (the code at the boundary). Type [0x400 = 2^10] exceeds the 10-bit
    bound, yet [Encode] accepts it: the guard compares with [>] against
    [maxObjectType = 0x400].  The shifted type leaves the 32 bits, so the
    packed value is the bare instance and unpacks to type 0. *)
Theorem Encode_accepts_type_0x400 :
  Encode {| Type_ := 0x400; Instance := 5 |} = Ok 5 /\
  ObjectIDFromUint32 5 = {| Type_ := AnalogInput; Instance := 5 |} /\
  ObjectID_wf {| Type_ := 0x400; Instance := 5 |}.
Proof. split; [reflexivity | split; [reflexivity |]]. unfold ObjectID_wf; simpl; lia. Qed.

(** C10. For every 32-bit [v], [ObjectIDFromUint32 v] has a type of at
    most [0x3FF] and an instance of at most [0x3FFFFF], and [Encode] on it
    succeeds and returns [v]. *)
Theorem ObjectID_unpack_pack (v : Z) :
  0 <= v < 2 ^ 32 ->
  0 <= Type_ (ObjectIDFromUint32 v) <= 0x3FF /\
  0 <= Instance (ObjectIDFromUint32 v) <= 0x3FFFFF /\
  Encode (ObjectIDFromUint32 v) = Ok v.
Proof.
  intros Hv.
  assert (Ht : 0 <= Z.shiftr v 22 < 2 ^ 10).
  { rewrite Z.shiftr_div_pow2 by lia. split.
    - apply Z.div_pos; lia.
    - apply Z.div_lt_upper_bound; lia. }
  assert (Hi : 0 <= Z.land v MaxInstance < 2 ^ 22).
  { rewrite MaxInstance_ones, Z.land_ones by lia.
    apply Z.mod_pos_bound. lia. }
  assert (Hty : Type_ (ObjectIDFromUint32 v) = Z.shiftr v 22).
  { unfold ObjectIDFromUint32, instanceBits; cbn [Type_].
    apply uint16_small. lia. }
  assert (Hin : Instance (ObjectIDFromUint32 v) = Z.land v MaxInstance).
  { unfold ObjectIDFromUint32; cbn [Instance]. apply uint32_small. lia. }
  rewrite Hty, Hin.
  split; [lia |]. split; [lia |].
  replace (ObjectIDFromUint32 v)
    with {| Type_ := Z.shiftr v 22; Instance := Z.land v MaxInstance |}.
  - rewrite Encode_in_bounds by assumption. f_equal.
    rewrite MaxInstance_ones, Z.land_ones, Z.shiftr_div_pow2 by lia.
    pose proof (Z.div_mod v (2 ^ 22)). lia.
  - destruct (ObjectIDFromUint32 v) as [ty inst]; simpl in *; congruence.
Qed.

Lemma ObjectID_unpack_pack_witness :
  0 <= Type_ (ObjectIDFromUint32 0xFFFFFFFF) <= 0x3FF /\
  0 <= Instance (ObjectIDFromUint32 0xFFFFFFFF) <= 0x3FFFFF /\
  Encode (ObjectIDFromUint32 0xFFFFFFFF) = Ok 0xFFFFFFFF.
Proof. apply (ObjectID_unpack_pack 0xFFFFFFFF). lia. Defined.

End ObjectID_packing.

(** ** Bytes and slices *)
Section Bytes.

Lemma byte_to_Z_range (b : byte) : 0 <= byte_to_Z b < 256.
Proof.
  unfold byte_to_Z. pose proof (Byte.to_N_bounded b) as Hb. lia.
Qed.

Lemma byte_to_of_Z (z : Z) : byte_to_Z (byte_of_Z z) = z mod 256.
Proof.
  unfold byte_to_Z, byte_of_Z.
  pose proof (Z.mod_pos_bound z 256 ltac:(lia)) as Hz.
  destruct (Byte.of_N (Z.to_N (z mod 256))) as [b |] eqn:Hof.
  - apply Byte.to_of_N in Hof. rewrite Hof. lia.
  - apply Byte.of_N_None_iff in Hof. lia.
Qed.

Lemma byte_to_of_Z_small (z : Z) :
  0 <= z < 256 -> byte_to_Z (byte_of_Z z) = z.
Proof. intros Hz. rewrite byte_to_of_Z. now apply Z.mod_small. Qed.

Lemma byte_to_Z_inj (a b : byte) : byte_to_Z a = byte_to_Z b -> a = b.
Proof.
  unfold byte_to_Z. intros H. apply N2Z.inj in H.
  pose proof (Byte.of_to_N a) as Ha. pose proof (Byte.of_to_N b) as Hb.
  congruence.
Qed.

Lemma len_app {A} (s1 s2 : list A) : len (s1 ++ s2) = len s1 + len s2.
Proof. unfold len. rewrite length_app. lia. Qed.

Lemma len_cons {A} (x : A) (s : list A) : len (x :: s) = 1 + len s.
Proof. unfold len. simpl length. lia. Qed.

Lemma len_nonneg {A} (s : list A) : 0 <= len s.
Proof. unfold len. lia. Qed.

(** Indexing and slicing inside the bounds read the list. *)
Lemma index_in_range (s : list byte) (i : Z) :
  0 <= i < len s -> s !! Z.to_nat i = Some (index s i).
Proof.
  unfold len, index. intros Hi.
  destruct (lookup_lt_is_Some_2 s (Z.to_nat i)) as [x Hx]; [lia |].
  rewrite Hx. f_equal. symmetry. now apply nth_lookup_Some.
Qed.

Lemma length_slice {A} (s : list A) (i j : Z) :
  0 <= i <= j -> j <= len s -> len (slice s i j) = j - i.
Proof.
  unfold len, slice. intros Hij Hj.
  rewrite length_take, length_drop. lia.
Qed.

(** The two slices [UDPFromAddress] takes, on a MAC laid out as
    tag, address bytes, tail. *)
Lemma slice_ip {A} (tag : A) (ip tl : list A) :
  slice (tag :: ip ++ tl) 1 (1 + len ip) = ip.
Proof.
  unfold slice, len.
  replace (Z.to_nat (1 + Z.of_nat (length ip) - 1)) with (length ip) by lia.
  change (Z.to_nat 1) with 1%nat. cbn [drop].
  rewrite drop_0. apply take_app_length.
Qed.

Lemma slice_port {A} (tag : A) (ip tl : list A) :
  len tl = 2 ->
  slice (tag :: ip ++ tl) (1 + len ip) (1 + len ip + 2) = tl.
Proof.
  unfold slice, len. intros Htl.
  replace (Z.to_nat (1 + Z.of_nat (length ip) + 2 - (1 + Z.of_nat (length ip))))
    with (length tl) by lia.
  replace (Z.to_nat (1 + Z.of_nat (length ip))) with (S (length ip)) by lia.
  cbn [drop]. rewrite drop_app_length. apply firstn_all.
Qed.

Lemma lor_shiftl_small (k hi lo : Z) :
  0 <= k -> 0 <= lo < 2 ^ k ->
  Z.lor lo (Z.shiftl hi k) = hi * 2 ^ k + lo.
Proof.
  intros Hk Hlo.
  assert (Hdisj : Z.land (Z.shiftl hi k) lo = 0).
  { apply Z.bits_inj'; intros n Hn.
    rewrite Z.land_spec, Z.bits_0.
    destruct (Z.ltb_spec n k) as [Hlt | Hge].
    - rewrite Z.shiftl_spec_low by lia. reflexivity.
    - destruct (Z.eq_dec lo 0) as [-> | Hne].
      + rewrite Z.bits_0. apply andb_false_r.
      + rewrite (Z.bits_above_log2 lo n), andb_false_r; [reflexivity | lia |].
        apply Z.lt_le_trans with k; [| lia].
        apply Z.log2_lt_pow2; lia. }
  rewrite Z.lor_comm, <- Z.lxor_lor, <- Z.add_nocarry_lxor by assumption.
  rewrite Z.shiftl_mul_pow2 by lia. reflexivity.
Qed.

(** Reading back the two bytes written for a 16-bit port. *)
Lemma BigEndian_Uint16_bytes16 (p : Z) :
  0 <= p < 2 ^ 16 ->
  binary.BigEndian_Uint16 (binary.BigEndian_bytes16 p) = p.
Proof.
  intros Hp. unfold binary.BigEndian_Uint16, binary.BigEndian_bytes16, index.
  change (Z.to_nat 1) with 1%nat. change (Z.to_nat 0) with 0%nat.
  cbn [nth].
  rewrite !byte_to_of_Z.
  rewrite Z.shiftr_div_pow2 by lia. change (2 ^ 8) with 256.
  assert (Hhi : 0 <= p / 256 < 256).
  { split; [apply Z.div_pos; lia | apply Z.div_lt_upper_bound; lia]. }
  rewrite (Z.mod_small (p / 256)) by lia.
  pose proof (Z.mod_pos_bound p 256 ltac:(lia)) as Hlo.
  rewrite uint16_small.
  - rewrite lor_shiftl_small by (change (2 ^ 8) with 256; lia).
    change (2 ^ 8) with 256. pose proof (Z.div_mod p 256). lia.
  - rewrite Z.shiftl_mul_pow2 by lia. lia.
Qed.

End Bytes.

(** ** Address conversion *)
Section Addressing.

Import bacnet.

(** The MAC [AddressFromUDP] builds, by the length of the IP slice. *)
Lemma AddressFromUDP_Mac_v4 (udp : net.UDPAddr) :
  len (net.IP_ udp) = 4 ->
  Mac (AddressFromUDP udp) =
    x04 :: net.IP_ udp ++ binary.BigEndian_bytes16 (uint16 (net.Port udp)).
Proof.
  intros Hlen. unfold AddressFromUDP, net.To4, net.IPv4len.
  rewrite Hlen. reflexivity.
Qed.

Lemma AddressFromUDP_Mac_v6 (udp : net.UDPAddr) :
  len (net.IP_ udp) = 16 ->
  Mac (AddressFromUDP udp) =
    x10 :: net.IP_ udp ++ binary.BigEndian_bytes16 (uint16 (net.Port udp)).
Proof.
  intros Hlen. unfold AddressFromUDP, net.To16, net.IPv4len, net.IPv6len.
  rewrite Hlen. reflexivity.
Qed.

(** [UDPFromAddress] on a MAC laid out as tag, [taglen] address bytes and a
    two-byte port. *)
Lemma UDPFromAddress_layout (tag : byte) (ip : list byte) (p : Z)
    (net_ : Z) (adr : list byte) :
  byte_to_Z tag = 4 \/ byte_to_Z tag = 16 ->
  len ip = byte_to_Z tag ->
  0 <= p < 2 ^ 16 ->
  UDPFromAddress
    {| Mac := tag :: ip ++ binary.BigEndian_bytes16 p; Net := net_; Adr := adr |}
  = {| net.IP_ := ip; net.Port := p; net.Zone := "" |}.
Proof.
  intros Htag Hlen Hp. unfold UDPFromAddress. cbn [Mac].
  assert (Hmac : len (tag :: ip ++ binary.BigEndian_bytes16 p) = 1 + len ip + 2).
  { rewrite len_cons, len_app. change (len (binary.BigEndian_bytes16 p)) with 2. lia. }
  rewrite Hmac.
  change (index (tag :: ip ++ binary.BigEndian_bytes16 p) 0) with tag.
  pose proof (len_nonneg ip) as Hnn.
  destruct (Z.ltb_spec (1 + len ip + 2) 2) as [Hbad | _]; [lia |].
  replace (negb (byte_to_Z tag =? 4) && negb (byte_to_Z tag =? 16)) with false
    by (destruct Htag as [-> | ->]; reflexivity).
  rewrite <- Hlen.
  destruct (Z.ltb_spec (1 + len ip + 2) (1 + len ip + 2)) as [Hbad | _]; [lia |].
  rewrite slice_ip, slice_port by reflexivity.
  now rewrite BigEndian_Uint16_bytes16.
Qed.

(** The round trip for both address lengths the source distinguishes. *)
Lemma UDP_roundtrip_any (udp : net.UDPAddr) :
  len (net.IP_ udp) = 4 \/ len (net.IP_ udp) = 16 ->
  0 <= net.Port udp < 2 ^ 16 ->
  UDPFromAddress (AddressFromUDP udp) =
    {| net.IP_ := net.IP_ udp; net.Port := net.Port udp; net.Zone := "" |}.
Proof.
  intros Hlen Hp.
  pose proof (AddressFromUDP_Mac_v4 udp) as H4.
  pose proof (AddressFromUDP_Mac_v6 udp) as H16.
  destruct (AddressFromUDP udp) as [mac n a]. cbn [Mac] in H4, H16.
  rewrite (uint16_small (net.Port udp)) in H4, H16 by assumption.
  destruct Hlen as [Hlen | Hlen].
  - rewrite (H4 Hlen). apply UDPFromAddress_layout; auto.
  - rewrite (H16 Hlen). apply UDPFromAddress_layout; auto.
Qed.

(** An IPv4 address, as Go's [net] has it: an IP slice with a 4-byte form
    ([To4] not nil), held in 4 bytes or in the 16 bytes of the IPv4-mapped
    form. *)
Lemma To4_IPv4_len (ip : net.IP) :
  net.To4 ip <> [] -> len ip = 4 \/ len ip = 16.
Proof.
  unfold net.To4, net.IPv4len, net.IPv6len.
  destruct (Z.eqb_spec (len ip) 4) as [H4 | _]; [now left |].
  destruct (Z.eqb_spec (len ip) 16) as [H16 | _]; [now right |].
  cbn [andb]. congruence.
Qed.

(** C3. For every IPv4 address, held in the 4-byte or in the 16-byte form,
    and every port (a 16-bit number), converting the UDP address with
    [AddressFromUDP] and back with [UDPFromAddress] returns the original
    IP and port. *)
Theorem Address_roundtrip (ip : net.IP) (port : Z) (zone : string) :
  net.To4 ip <> [] ->
  0 <= port < 2 ^ 16 ->
  let udp := {| net.IP_ := ip; net.Port := port; net.Zone := zone |} in
  net.IP_ (UDPFromAddress (AddressFromUDP udp)) = ip /\
  net.Port (UDPFromAddress (AddressFromUDP udp)) = port.
Proof.
  intros Hv4 Hp udp.
  rewrite (UDP_roundtrip_any udp)
    by (subst udp; cbn [net.IP_ net.Port]; auto using To4_IPv4_len).
  split; reflexivity.
Qed.

Lemma Address_roundtrip_witness :
  net.To4 (net.v4InV6Prefix ++ [xc0; x00; x02; x05]) <> [] /\
  0 <= 47808 < 2 ^ 16 /\
  let udp := {| net.IP_ := net.v4InV6Prefix ++ [xc0; x00; x02; x05];
                net.Port := 47808; net.Zone := "" |} in
  net.IP_ (UDPFromAddress (AddressFromUDP udp))
    = net.v4InV6Prefix ++ [xc0; x00; x02; x05] /\
  net.Port (UDPFromAddress (AddressFromUDP udp)) = 47808.
Proof.
  split; [discriminate |]. split; [lia |].
  apply (Address_roundtrip (net.v4InV6Prefix ++ [xc0; x00; x02; x05]) 47808 "");
    [discriminate | lia].
Defined.

(** The same address in its two forms, each returned as it was given. *)
Example UDP_roundtrip_both_forms :
  UDPFromAddress
    (AddressFromUDP {| net.IP_ := [xc0; x00; x02; x05]; net.Port := 47808;
                       net.Zone := "" |})
  = {| net.IP_ := [xc0; x00; x02; x05]; net.Port := 47808; net.Zone := "" |} /\
  UDPFromAddress
    (AddressFromUDP {| net.IP_ := net.v4InV6Prefix ++ [xc0; x00; x02; x05];
                       net.Port := 47808; net.Zone := "" |})
  = {| net.IP_ := net.v4InV6Prefix ++ [xc0; x00; x02; x05];
       net.Port := 47808; net.Zone := "" |}.
Proof. split; reflexivity. Qed.

(** The two bytes written for a 16-bit port are the port in big-endian. *)
Lemma BigEndian_bytes16_value (port : Z) :
  0 <= port < 2 ^ 16 ->
  byte_to_Z (byte_of_Z (Z.shiftr port 8)) * 256 + byte_to_Z (byte_of_Z port)
  = port.
Proof.
  intros Hp.
  rewrite !byte_to_of_Z, Z.shiftr_div_pow2 by lia. change (2 ^ 8) with 256.
  rewrite (Z.mod_small (port / 256)).
  - pose proof (Z.div_mod port 256). lia.
  - split; [apply Z.div_pos; lia | apply Z.div_lt_upper_bound; lia].
Qed.

(** C4 (as the code has it). [AddressFromUDP] decides on the length of the
    IP slice.  For every IPv4 UDP address with bytes [a.b.c.d] and a
    16-bit port: held as a 4-byte slice, its MAC is exactly the 7 bytes
    [4, a, b, c, d, hi, lo]; held in the 16-byte form, its MAC is the 19
    bytes made of the tag 16, the 16 bytes of the slice and [hi, lo]; in
    both, [hi], [lo] is the port in big-endian, and network number and
    remote address are left zero. *)
Theorem AddressFromUDP_ipv4_Mac (ip : net.IP) (a b c d : byte) (port : Z)
    (zone : string) :
  net.To4 ip = [a; b; c; d] ->
  0 <= port < 2 ^ 16 ->
  let udp := {| net.IP_ := ip; net.Port := port; net.Zone := zone |} in
  exists hi lo : byte,
    byte_to_Z hi * 256 + byte_to_Z lo = port /\
    byte_to_Z x04 = 4 /\ byte_to_Z x10 = 16 /\
    (len ip = 4 \/ len ip = 16) /\
    (len ip = 4 ->
     AddressFromUDP udp
     = {| Mac := [x04; a; b; c; d; hi; lo]; Net := 0; Adr := [] |}) /\
    (len ip = 16 ->
     AddressFromUDP udp
     = {| Mac := x10 :: ip ++ [hi; lo]; Net := 0; Adr := [] |} /\
     len (Mac (AddressFromUDP udp)) = 19).
Proof.
  intros Hv4 Hp udp.
  exists (byte_of_Z (Z.shiftr port 8)), (byte_of_Z port).
  split; [now apply BigEndian_bytes16_value |].
  split; [reflexivity |]. split; [reflexivity |].
  split; [apply To4_IPv4_len; rewrite Hv4; discriminate |].
  subst udp. unfold AddressFromUDP. cbn [net.IP_ net.Port].
  rewrite uint16_small by assumption. split.
  - intros Hlen. rewrite Hv4.
    unfold net.IPv4len. rewrite Hlen. reflexivity.
  - intros Hlen. unfold net.To16, net.IPv4len, net.IPv6len.
    rewrite Hlen. cbn [Z.eqb Pos.eqb Mac]. split; [reflexivity |].
    rewrite !len_app, Hlen. reflexivity.
Qed.

Lemma AddressFromUDP_ipv4_Mac_witness :
  net.To4 [xc0; x00; x02; x05] = [xc0; x00; x02; x05] /\
  0 <= 47808 < 2 ^ 16 /\
  let udp := {| net.IP_ := [xc0; x00; x02; x05]; net.Port := 47808;
                net.Zone := "" |} in
  exists hi lo : byte,
    byte_to_Z hi * 256 + byte_to_Z lo = 47808 /\
    byte_to_Z x04 = 4 /\ byte_to_Z x10 = 16 /\
    (len [xc0; x00; x02; x05] = 4 \/ len [xc0; x00; x02; x05] = 16) /\
    (len [xc0; x00; x02; x05] = 4 ->
     AddressFromUDP udp
     = {| Mac := [x04; xc0; x00; x02; x05; hi; lo]; Net := 0; Adr := [] |}) /\
    (len [xc0; x00; x02; x05] = 16 ->
     AddressFromUDP udp
     = {| Mac := x10 :: [xc0; x00; x02; x05] ++ [hi; lo]; Net := 0;
          Adr := [] |} /\
     len (Mac (AddressFromUDP udp)) = 19).
Proof.
  split; [reflexivity |]. split; [lia |].
  apply (AddressFromUDP_ipv4_Mac [xc0; x00; x02; x05] xc0 x00 x02 x05 47808 "");
    [reflexivity | lia].
Defined.

(** C4 as stated fails: the IPv4 address [192.0.2.5] held in the 16-byte
    form (as [net.ParseIP] and [net.IPv4] return it) from port 47808 does
    not get the 7 bytes [4, 192, 0, 2, 5, 0xBA, 0xC0] but 19 bytes under
    the tag 16. *)
Lemma AddressFromUDP_ipv4_not_7_bytes :
  net.To4 (net.v4InV6Prefix ++ [xc0; x00; x02; x05]) = [xc0; x00; x02; x05] /\
  Mac (AddressFromUDP
         {| net.IP_ := net.v4InV6Prefix ++ [xc0; x00; x02; x05];
            net.Port := 47808; net.Zone := "" |})
    <> [x04; xc0; x00; x02; x05; xba; xc0] /\
  Mac (AddressFromUDP
         {| net.IP_ := net.v4InV6Prefix ++ [xc0; x00; x02; x05];
            net.Port := 47808; net.Zone := "" |})
    = [x10; x00; x00; x00; x00; x00; x00; x00; x00; x00; x00; xff; xff;
       xc0; x00; x02; x05; xba; xc0] /\
  len (Mac (AddressFromUDP
              {| net.IP_ := net.v4InV6Prefix ++ [xc0; x00; x02; x05];
                 net.Port := 47808; net.Zone := "" |})) = 19.
Proof. repeat split; try reflexivity. discriminate. Qed.

(** Scenario 1 of the specification: the MAC recorded for
    [192.0.2.5:47808]. *)
Example AddressFromUDP_scenario :
  Mac (AddressFromUDP {| net.IP_ := [xc0; x00; x02; x05]; net.Port := 47808;
                         net.Zone := "" |})
  = [x04; xc0; x00; x02; x05; xba; xc0].
Proof. reflexivity. Qed.

(** An IPv4 address held in the 16-byte form takes the other branch: the
    source decides on [len(udp.IP)], not on the address family. *)
Example AddressFromUDP_ipv4_in_16_bytes :
  Mac (AddressFromUDP
         {| net.IP_ := net.v4InV6Prefix ++ [xc0; x00; x02; x05];
            net.Port := 47808; net.Zone := "" |})
  = x10 :: (net.v4InV6Prefix ++ [xc0; x00; x02; x05]) ++ [xba; xc0].
Proof. reflexivity. Qed.

End Addressing.

(** ** Malformed addresses *)
Section Malformed.

Import bacnet.

(** [UDPFromAddress] returns the zero value exactly on the malformed
    addresses: a parsed address has 4 or 16 IP bytes. *)
Lemma UDPFromAddress_parsed (addr : Address) :
  spec.malformed_address addr = false ->
  len (net.IP_ (UDPFromAddress addr)) = 4 \/
  len (net.IP_ (UDPFromAddress addr)) = 16.
Proof.
  unfold spec.malformed_address, UDPFromAddress.
  destruct (Mac addr) as [| tag rest] eqn:Hmac; [discriminate |].
  change (index (tag :: rest) 0) with tag.
  pose proof (byte_to_Z_range tag) as Htag.
  intros Hwf. apply orb_false_elim in Hwf as [Hlen Hkind].
  rewrite Hkind, Hlen.
  apply Z.ltb_ge in Hlen.
  destruct (Z.ltb_spec (len (tag :: rest)) 2) as [Hbad | _]; [lia |].
  cbn [net.IP_].
  rewrite length_slice by lia.
  apply andb_false_iff in Hkind.
  destruct Hkind as [H | H]; apply negb_false_iff, Z.eqb_eq in H; lia.
Qed.

(** C5 (as the code has it). For every Address whose MAC is too short
    (shorter than 1 + length-tag + 2 bytes) or whose first byte is neither
    4 nor 16, [UDPFromAddress] returns the zero [net.UDPAddr]: nil IP,
    port 0, empty zone. *)
Theorem UDPFromAddress_malformed (addr : Address) :
  spec.malformed_address addr = true ->
  UDPFromAddress addr = net.zeroUDPAddr.
Proof.
  unfold spec.malformed_address, UDPFromAddress.
  destruct (Mac addr) as [| tag rest] eqn:Hmac; [reflexivity |].
  change (index (tag :: rest) 0) with tag.
  pose proof (byte_to_Z_range tag) as Htag.
  intros Hbad.
  destruct (Z.ltb_spec (len (tag :: rest)) 2) as [| Hlen2]; [reflexivity |].
  destruct (negb (byte_to_Z tag =? 4) && negb (byte_to_Z tag =? 16));
    [reflexivity |].
  rewrite orb_false_r in Hbad. rewrite Hbad. reflexivity.
Qed.

Lemma UDPFromAddress_malformed_witness :
  spec.malformed_address {| Mac := [x04; xc0; x00; x02]; Net := 0; Adr := [] |}
    = true /\
  UDPFromAddress {| Mac := [x04; xc0; x00; x02]; Net := 0; Adr := [] |}
    = net.zeroUDPAddr.
Proof.
  split; [reflexivity |].
  apply (UDPFromAddress_malformed
           {| Mac := [x04; xc0; x00; x02]; Net := 0; Adr := [] |}).
  reflexivity.
Defined.

(** C5 as stated fails: on the empty MAC (and on a MAC with length tag 6)
    the call returns a value, the zero [net.UDPAddr], not an error. *)
Lemma UDPFromAddress_no_error :
  spec.malformed_address {| Mac := []; Net := 0; Adr := [] |} = true /\
  spec.malformed_address
    {| Mac := [x06; x01; x02; x03; x04; x05; x06; xba; xc0]; Net := 0;
       Adr := [] |} = true /\
  ~ is_Err (spec.UDPFromAddress_call {| Mac := []; Net := 0; Adr := [] |}) /\
  spec.UDPFromAddress_call {| Mac := []; Net := 0; Adr := [] |}
    = Ok net.zeroUDPAddr /\
  spec.UDPFromAddress_call
    {| Mac := [x06; x01; x02; x03; x04; x05; x06; xba; xc0]; Net := 0;
       Adr := [] |} = Ok net.zeroUDPAddr.
Proof. repeat split; auto. Qed.

End Malformed.

(** Settles the comparisons of data-type and service against constants. *)
Ltac classify :=
  repeat match goal with
         | |- context [bool_decide (?a = ?b)] =>
           destruct (bool_decide_reflect (a = b)); try congruence
         end.

(** ** Discovery *)
Section Discovery.

Import bacip.

Implicit Types (data : WhoIs) (set : gmap Iam bacnet.Address).
Implicit Types (r : BVLC * net.UDPAddr) (frames : list (BVLC * net.UDPAddr)).

(** One received frame, by what it announces. *)
Lemma WhoIs_receive_unexpected data set r :
  spec.unexpected_payload r = true -> is_Err (WhoIs_receive data set r).
Proof.
  unfold spec.unexpected_payload, WhoIs_receive.
  destruct (ADPU (NPDU_ r.1)) as [[dt st inv p] |]; cbn; [| discriminate].
  destruct dt, st, p; classify; cbn; try discriminate; trivial.
Qed.

Lemma WhoIs_receive_expected data set r :
  spec.unexpected_payload r = false ->
  WhoIs_receive data set r =
    Ok match spec.announced r with
       | Some iam =>
         if spec.in_range data iam
         then <[iam := bacnet.AddressFromUDP r.2]> set
         else set
       | None => set
       end.
Proof.
  unfold spec.unexpected_payload, spec.announced, spec.in_range, spec.range,
    WhoIs_receive.
  destruct (ADPU (NPDU_ r.1)) as [[dt st inv p] |]; cbn; [| reflexivity].
  destruct dt, st, p; classify; cbn; try discriminate; try reflexivity.
  intros _. destruct (High data), (Low data); cbn; try reflexivity.
  now destruct (_ && _).
Qed.

(** The loop fails exactly when some received frame has an unexpected
    payload. *)
Lemma WhoIs_loop_Err data frames set :
  is_Err (WhoIs_loop data set frames) <->
  Exists (fun r => spec.unexpected_payload r = true) frames.
Proof.
  revert set. induction frames as [| r frames IH]; intros set; cbn.
  - rewrite Exists_nil. tauto.
  - rewrite Exists_cons.
    destruct (spec.unexpected_payload r) eqn:Hr.
    + pose proof (WhoIs_receive_unexpected data set r Hr) as Herr.
      destruct (WhoIs_receive data set r); cbn in *; tauto.
    + rewrite (WhoIs_receive_expected data set r Hr), IH.
      intuition discriminate.
Qed.

(** Every entry of the final set was in the initial set or was recorded
    from a received announcement that passed the filter, with the address
    of the UDP source of that frame. *)
Lemma WhoIs_loop_lookup data frames set set' iam addr :
  WhoIs_loop data set frames = Ok set' ->
  set' !! iam = Some addr ->
  set !! iam = Some addr \/
  exists r, r ∈ frames /\ spec.announced r = Some iam /\
            spec.in_range data iam = true /\
            addr = bacnet.AddressFromUDP r.2.
Proof.
  revert set. induction frames as [| r frames IH]; intros set; cbn.
  - intros [= ->] Hin. now left.
  - destruct (spec.unexpected_payload r) eqn:Hr.
    + pose proof (WhoIs_receive_unexpected data set r Hr) as Herr.
      destruct (WhoIs_receive data set r); cbn in Herr; [tauto | discriminate].
    + rewrite (WhoIs_receive_expected data set r Hr).
      intros Hloop Hin.
      destruct (IH _ Hloop Hin) as [Hset | (r' & Hr' & Hann & Hrng & Haddr)].
      * destruct (spec.announced r) as [iam' |] eqn:Hann; [| now left].
        destruct (spec.in_range data iam') eqn:Hrng; [| now left].
        destruct (decide (iam' = iam)) as [-> | Hne].
        -- rewrite lookup_insert_eq in Hset. injection Hset as <-.
           right. exists r. repeat split; auto. apply list_elem_of_here.
        -- rewrite lookup_insert_ne in Hset by assumption. now left.
      * right. exists r'. repeat split; auto. now apply list_elem_of_further.
Qed.

(** An entry is never removed, and a received announcement that passes
    the filter is in the final set. *)
Lemma WhoIs_loop_mono data frames set set' iam :
  WhoIs_loop data set frames = Ok set' ->
  is_Some (set !! iam) -> is_Some (set' !! iam).
Proof.
  revert set. induction frames as [| r frames IH]; intros set; cbn.
  - now intros [= ->].
  - destruct (spec.unexpected_payload r) eqn:Hr.
    + pose proof (WhoIs_receive_unexpected data set r Hr) as Herr.
      destruct (WhoIs_receive data set r); cbn in Herr; [tauto | discriminate].
    + rewrite (WhoIs_receive_expected data set r Hr).
      intros Hloop Hin. apply (IH _ Hloop).
      destruct (spec.announced r) as [iam' |]; [| assumption].
      destruct (spec.in_range data iam'); [| assumption].
      rewrite lookup_insert_is_Some. destruct (decide (iam' = iam)); auto.
Qed.

Lemma WhoIs_loop_recorded data frames set set' r iam :
  WhoIs_loop data set frames = Ok set' ->
  r ∈ frames -> spec.announced r = Some iam ->
  spec.in_range data iam = true ->
  is_Some (set' !! iam).
Proof.
  revert set. induction frames as [| r0 frames IH]; intros set; cbn.
  - intros _ Hin. now apply not_elem_of_nil in Hin.
  - destruct (spec.unexpected_payload r0) eqn:Hr.
    + pose proof (WhoIs_receive_unexpected data set r0 Hr) as Herr.
      destruct (WhoIs_receive data set r0); cbn in Herr; [tauto | discriminate].
    + rewrite (WhoIs_receive_expected data set r0 Hr).
      intros Hloop Hin Hann Hrng.
      apply elem_of_cons in Hin as [<- | Hin].
      * rewrite Hann, Hrng in Hloop.
        apply (WhoIs_loop_mono _ _ _ _ _ Hloop).
        rewrite lookup_insert_eq. eauto.
      * now apply (IH _ Hloop).
Qed.

(** The devices built from the set at the deadline. *)
Lemma elem_of_WhoIs_result set (d : bacnet.Device) :
  d ∈ WhoIs_result set <-> set !! spec.Iam_of_device d = Some (bacnet.Addr d).
Proof.
  unfold WhoIs_result. rewrite list_elem_of_fmap. split.
  - intros ([iam addr] & -> & Hin). apply elem_of_map_to_list in Hin.
    destruct iam as [oid m sgm v]. exact Hin.
  - intros Hin. exists (spec.Iam_of_device d, bacnet.Addr d). split.
    + now destruct d.
    + now apply elem_of_map_to_list.
Qed.

Lemma kept_WhoIs_result set iam :
  spec.kept iam (WhoIs_result set) <-> is_Some (set !! iam).
Proof.
  unfold spec.kept. split.
  - intros (d & Hd & <-). apply elem_of_WhoIs_result in Hd. eauto.
  - intros [addr Haddr].
    exists {| bacnet.ID := ObjectID iam; bacnet.MaxApdu := MaxApduLength iam;
              bacnet.Segmentation := SegmentationSupport iam;
              bacnet.Vendor := VendorID iam; bacnet.Addr := addr |}.
    split; [| now destruct iam].
    apply elem_of_WhoIs_result. now destruct iam.
Qed.

(** A successful [WhoIs] is a successful loop from the empty set. *)
Lemma WhoIs_Ok_inv broadcast data frames devices :
  WhoIs_ broadcast data frames = Ok devices ->
  exists set, WhoIs_loop data ∅ frames = Ok set /\ devices = WhoIs_result set.
Proof.
  unfold WhoIs_. destruct (broadcast _); [| discriminate].
  destruct (WhoIs_loop data ∅ frames) as [set |]; [| discriminate].
  intros [= <-]. eauto.
Qed.

(** C7. Range filter.  For an IAm announcement received during a
    discovery that returns: when a range [[low, high]] was supplied with
    the request (both bounds present), the announced device is in the
    returned set if and only if its instance lies inside [[low, high]]
    (bounds included), so an instance outside is excluded; when no range
    was supplied, it is in the returned set whatever its instance. *)
Theorem WhoIs_range_filter broadcast data frames devices r iam :
  WhoIs_ broadcast data frames = Ok devices ->
  r ∈ frames ->
  spec.announced r = Some iam ->
  match Low data, High data with
  | Some low, Some high =>
    spec.kept iam devices <->
    low <= bacnet.Instance (ObjectID iam) <= high
  | _, _ => spec.kept iam devices
  end.
Proof.
  intros Hok Hin Hann.
  destruct (WhoIs_Ok_inv _ _ _ _ Hok) as (set & Hloop & ->).
  assert (Hkept : spec.kept iam (WhoIs_result set) <->
                  spec.in_range data iam = true).
  { rewrite kept_WhoIs_result. split.
    - intros [addr Haddr].
      destruct (WhoIs_loop_lookup _ _ _ _ _ _ Hloop Haddr)
        as [Hempty | (r' & _ & _ & Hrng & _)]; [| exact Hrng].
      now rewrite lookup_empty in Hempty.
    - intros Hrng. exact (WhoIs_loop_recorded _ _ _ _ _ _ Hloop Hin Hann Hrng). }
  unfold spec.in_range, spec.range in Hkept.
  destruct (Low data) as [low |], (High data) as [high |];
    try (now apply Hkept).
  rewrite Hkept, andb_true_iff, !Z.leb_le. reflexivity.
Qed.

Lemma WhoIs_range_filter_witness :
  WhoIs_ scenario.socket_ok scenario.range_100_200
    [scenario.frame (PayloadIam (scenario.iam 50)) None x05;
     scenario.frame (PayloadIam (scenario.iam 150)) None x06]
  = Ok [scenario.device 150 x06] /\
  (spec.kept (scenario.iam 50) [scenario.device 150 x06] <->
   100 <= 50 <= 200).
Proof.
  assert (Hrun :
    WhoIs_ scenario.socket_ok scenario.range_100_200
      [scenario.frame (PayloadIam (scenario.iam 50)) None x05;
       scenario.frame (PayloadIam (scenario.iam 150)) None x06]
    = Ok [scenario.device 150 x06]) by (vm_compute; reflexivity).
  split; [exact Hrun |].
  apply (WhoIs_range_filter scenario.socket_ok scenario.range_100_200 _ _
           (scenario.frame (PayloadIam (scenario.iam 50)) None x05)
           (scenario.iam 50) Hrun).
  - apply list_elem_of_here.
  - reflexivity.
Defined.

(** C8 (as the code has it). [WhoIs] returns an error exactly when the
    broadcast of the request fails or a received frame classified
    (unconfirmed-request, i-am) carries a payload that is not an IAm;
    in every other case it returns the devices of the set collected when
    the deadline expires. *)
Theorem WhoIs_error_cases broadcast data frames :
  (is_Err (WhoIs_ broadcast data frames) <->
   is_Err (broadcast (WhoIs_npdu data)) \/
   Exists (fun r => spec.unexpected_payload r = true) frames) /\
  (~ is_Err (WhoIs_ broadcast data frames) <->
   exists set, WhoIs_loop data ∅ frames = Ok set /\
               WhoIs_ broadcast data frames = Ok (WhoIs_result set)).
Proof.
  pose proof (WhoIs_loop_Err data frames ∅) as Hloop.
  unfold WhoIs_ in *.
  destruct (broadcast (WhoIs_npdu data)) as [n | e]; cbn.
  - destruct (WhoIs_loop data ∅ frames) as [set | e]; cbn in *; split.
    + tauto.
    + split; [eauto | tauto].
    + tauto.
    + split; [tauto |]. intros (set & [=] & _).
  - split; [tauto |]. split; [tauto |]. intros (set & _ & [=]).
Qed.

(** C8 as stated fails: discovery returns an error when a frame classified
    as an IAm carries another payload, and when the broadcast fails. *)
Lemma WhoIs_returns_error :
  WhoIs_ scenario.socket_ok scenario.no_range
    [scenario.frame (PayloadIam (scenario.iam 1234)) None x05;
     scenario.frame PayloadNil None x06]
  = Err (errorString "unexpected payload type <nil>") /\
  WhoIs_ scenario.socket_closed scenario.no_range []
  = Err (errorSocket "use of closed network connection").
Proof. split; vm_compute; reflexivity. Qed.

(** The NPDU source specifier of a frame is never read. *)
Lemma WhoIs_receive_Source data set r (s : option bacnet.Address) :
  WhoIs_receive data set (spec.with_Source s r) = WhoIs_receive data set r.
Proof. reflexivity. Qed.

Lemma WhoIs_ignores_Source broadcast data frames
    (s : BVLC * net.UDPAddr -> option bacnet.Address) :
  WhoIs_ broadcast data ((fun r => spec.with_Source (s r) r) <$> frames)
  = WhoIs_ broadcast data frames.
Proof.
  unfold WhoIs_. destruct (broadcast _); [| reflexivity].
  generalize (∅ : gmap Iam bacnet.Address).
  induction frames as [| r frames IH]; intros set; [reflexivity |].
  cbn [fmap list_fmap WhoIs_loop]. rewrite WhoIs_receive_Source.
  destruct (WhoIs_receive data set r) as [set' |]; [| reflexivity].
  apply IH.
Qed.

(** C9 (as the code has it). The Address recorded for every returned
    device is [AddressFromUDP] of the UDP source of a received IAm frame
    announcing that device, whether or not the frame carries an NPDU
    source specifier. *)
Theorem WhoIs_address_from_UDP_source broadcast data frames devices d :
  WhoIs_ broadcast data frames = Ok devices ->
  d ∈ devices ->
  exists r, r ∈ frames /\
            spec.announced r = Some (spec.Iam_of_device d) /\
            bacnet.Addr d = bacnet.AddressFromUDP r.2.
Proof.
  intros Hok Hd.
  destruct (WhoIs_Ok_inv _ _ _ _ Hok) as (set & Hloop & ->).
  apply elem_of_WhoIs_result in Hd.
  destruct (WhoIs_loop_lookup _ _ _ _ _ _ Hloop Hd)
    as [Hempty | (r & Hr & Hann & _ & Haddr)].
  - now rewrite lookup_empty in Hempty.
  - eauto.
Qed.

Lemma WhoIs_address_from_UDP_source_witness :
  WhoIs_ scenario.socket_ok scenario.no_range
    [scenario.frame (PayloadIam (scenario.iam 1234)) (Some scenario.routed) x05]
  = Ok [scenario.device 1234 x05] /\
  exists r,
    r ∈ [scenario.frame (PayloadIam (scenario.iam 1234))
           (Some scenario.routed) x05] /\
    spec.announced r = Some (spec.Iam_of_device (scenario.device 1234 x05)) /\
    bacnet.Addr (scenario.device 1234 x05) = bacnet.AddressFromUDP r.2.
Proof.
  assert (Hrun :
    WhoIs_ scenario.socket_ok scenario.no_range
      [scenario.frame (PayloadIam (scenario.iam 1234))
         (Some scenario.routed) x05]
    = Ok [scenario.device 1234 x05]) by (vm_compute; reflexivity).
  split; [exact Hrun |].
  apply (WhoIs_address_from_UDP_source scenario.socket_ok scenario.no_range
           _ _ (scenario.device 1234 x05) Hrun).
  apply list_elem_of_here.
Defined.

(** C9 as stated fails: an IAm frame carrying the source specifier
    [scenario.routed], received from [192.0.2.5:47808], is recorded with
    the address of the UDP source, not with the source specifier; the same
    frame from [192.0.2.6] is recorded with another address, and dropping
    the source specifier changes nothing. *)
Lemma WhoIs_source_specifier_not_used :
  Source (NPDU_ (scenario.frame (PayloadIam (scenario.iam 1234))
                   (Some scenario.routed) x05).1) = Some scenario.routed /\
  WhoIs_ scenario.socket_ok scenario.no_range
    [scenario.frame (PayloadIam (scenario.iam 1234)) (Some scenario.routed) x05]
  = Ok [scenario.device 1234 x05] /\
  bacnet.Addr (scenario.device 1234 x05) <> scenario.routed /\
  bacnet.Addr (scenario.device 1234 x05) =
    bacnet.AddressFromUDP
      (scenario.frame (PayloadIam (scenario.iam 1234))
         (Some scenario.routed) x05).2 /\
  WhoIs_ scenario.socket_ok scenario.no_range
    [scenario.frame (PayloadIam (scenario.iam 1234)) (Some scenario.routed) x06]
  = Ok [scenario.device 1234 x06] /\
  WhoIs_ scenario.socket_ok scenario.no_range
    [scenario.frame (PayloadIam (scenario.iam 1234)) None x05]
  = Ok [scenario.device 1234 x05].
Proof.
  repeat split; try (vm_compute; reflexivity).
  intros [=].
Qed.

End Discovery.

(** ** Reply classification of ReadProperty *)
Section ReadProperty_flow.

Import bacip.

(** On a reply whose payload has the dynamic type its classification calls
    for, the call returns as the specification says: the typed error of an
    Error reply, the decoded value of a (complex-ack, read-property)
    reply, "invalid answer" for any other classification. *)
Lemma ReadProperty_reply_matching (apdu : APDU) :
  spec.reply_payload_matches apdu ->
  match DataType apdu, ServiceType_ apdu with
  | Error, _ =>
    exists e, Payload_ apdu = PayloadApduError e /\
              ReadProperty_reply apdu = Return (Err (errorApdu e))
  | ComplexAck, ServiceConfirmedReadProperty =>
    exists rp, Payload_ apdu = PayloadReadProperty rp /\
               ReadProperty_reply apdu = Return (Ok (Data rp))
  | _, _ => ReadProperty_reply apdu = Return (Err (errorString "invalid answer"))
  end.
Proof.
  unfold spec.reply_payload_matches, ReadProperty_reply.
  destruct apdu as [dt st inv p]; cbn [DataType ServiceType_ Payload_].
  destruct dt, st; classify; cbn [andb];
    try reflexivity; intros [x ->]; eauto.
Qed.

(** The classification alone decides a reply that is neither an Error nor
    a (complex-ack, read-property): the payload is not looked at. *)
Lemma ReadProperty_reply_other (apdu : APDU) :
  DataType apdu <> Error ->
  ~ (DataType apdu = ComplexAck /\
     ServiceType_ apdu = ServiceConfirmedReadProperty) ->
  ReadProperty_reply apdu = Return (Err (errorString "invalid answer")).
Proof.
  unfold ReadProperty_reply. intros Herr Hack.
  classify; cbn [andb]; tauto.
Qed.

(** C6 (the code on an unchecked payload). A delivered reply with
    data-type Error whose payload is not an error payload, or with
    (complex-ack, read-property) whose payload is not a read-property
    payload, makes the call panic on the type assertion: it returns
    neither the typed error nor an invalid-reply error. *)
Theorem ReadProperty_reply_panics (c : Client) (device : bacnet.Device)
    (readProp : ReadProperty) :
  ReadProperty_ c scenario.socket_ok 0 device readProp
    (Delivered {| DataType := Error;
                  ServiceType_ := ServiceConfirmedReadProperty;
                  InvokeID := 0; Payload_ := PayloadNil |}) = Panic /\
  ReadProperty_ c scenario.socket_ok 0 device readProp
    (Delivered {| DataType := ComplexAck;
                  ServiceType_ := ServiceConfirmedReadProperty;
                  InvokeID := 0;
                  Payload_ := PayloadApduError {| Class := 1; Code := 31 |} |})
  = Panic.
Proof. split; reflexivity. Qed.

(** Scenarios 3 and 4 of the specification: a complex-ack carrying the
    real 23.5 ([0x41BC0000]) and an error reply carrying (1, 31). *)
Example ReadProperty_scenarios (c : Client) (device : bacnet.Device)
    (readProp : ReadProperty) :
  ReadProperty_ c scenario.socket_ok 0 device readProp
    (Delivered {| DataType := ComplexAck;
                  ServiceType_ := ServiceConfirmedReadProperty;
                  InvokeID := 0;
                  Payload_ := PayloadReadProperty
                                {| RP_ObjectID := RP_ObjectID readProp;
                                   RP_Property := RP_Property readProp;
                                   Data := Real 0x41BC0000 |} |})
  = Return (Ok (Real 0x41BC0000)) /\
  ReadProperty_ c scenario.socket_ok 0 device readProp
    (Delivered {| DataType := Error;
                  ServiceType_ := ServiceConfirmedReadProperty;
                  InvokeID := 0;
                  Payload_ := PayloadApduError {| Class := 1; Code := 31 |} |})
  = Return (Err (errorApdu {| Class := 1; Code := 31 |})).
Proof. split; reflexivity. Qed.

End ReadProperty_flow.

(** * Further properties of the code *)

(** ** ObjectID packing, beyond the 10-bit types *)
Section ObjectID_more.

Import bacnet.

Lemma Encode_Ok_inv (o : ObjectID) (v : Z) :
  Encode o = Ok v ->
  Instance o <= MaxInstance /\ Type_ o <= maxObjectType /\
  v = Z.lor (uint32 (Z.shiftl (uint32 (Type_ o)) instanceBits))
            (uint32 (Instance o)).
Proof.
  unfold Encode.
  destruct (Z.ltb_spec MaxInstance (Instance o)); [discriminate |].
  destruct (Z.ltb_spec maxObjectType (Type_ o)); [discriminate |].
  intros [= <-]. auto.
Qed.

(** What a successful [Encode] unpacks to: the instance, and the type
    reduced to its low 10 bits. *)
Lemma Encode_unpack (o : ObjectID) (v : Z) :
  ObjectID_wf o -> Encode o = Ok v ->
  ObjectIDFromUint32 v =
    {| Type_ := Type_ o mod 2 ^ 10; Instance := Instance o |}.
Proof.
  intros [Ht Hi] Henc.
  destruct (Encode_Ok_inv o v Henc) as (Hmi & Hmt & Hv).
  unfold MaxInstance in Hmi. unfold maxObjectType in Hmt.
  destruct (Z.eq_dec (Type_ o) 1024) as [Heq | Hne].
  - rewrite Hv, Heq. unfold instanceBits.
    change (uint32 (Z.shiftl (uint32 1024) 22)) with 0.
    rewrite Z.lor_0_l, uint32_small by lia.
    change (1024 mod 2 ^ 10) with 0.
    pose proof (unpack_type 0 (Instance o)) as Hty.
    pose proof (unpack_instance 0 (Instance o)) as Hin.
    rewrite Z.mul_0_l, Z.add_0_l in Hty, Hin.
    unfold ObjectIDFromUint32, instanceBits.
    rewrite Hty, Hin by lia. rewrite uint32_small by lia. reflexivity.
  - destruct o as [t i]; cbn [Type_ Instance] in *.
    rewrite Encode_in_bounds in Henc by lia. injection Henc as <-.
    unfold ObjectIDFromUint32, instanceBits.
    rewrite unpack_type, unpack_instance by lia.
    rewrite uint16_small, uint32_small by lia.
    now rewrite (Z.mod_small t) by lia.
Qed.

(** X1. When [Encode] succeeds on an ObjectID, unpacking the result gives
    the ObjectID back if and only if its type is not [0x400]. *)
Theorem Encode_unpack_iff (o : ObjectID) (v : Z) :
  ObjectID_wf o -> Encode o = Ok v ->
  (ObjectIDFromUint32 v = o <-> Type_ o <> 0x400).
Proof.
  intros Hwf Henc. rewrite (Encode_unpack o v Hwf Henc).
  destruct (Encode_Ok_inv o v Henc) as (_ & Hmt & _).
  unfold maxObjectType in Hmt. destruct Hwf as [Ht _].
  destruct o as [t i]; cbn [Type_ Instance] in *. split.
  - intros [= Hmod] ->. discriminate Hmod.
  - intros Hne. now rewrite Z.mod_small by lia.
Qed.

Lemma Encode_unpack_iff_witness :
  ObjectID_wf {| Type_ := Proprietarymax; Instance := MaxInstance |} /\
  Encode {| Type_ := Proprietarymax; Instance := MaxInstance |}
    = Ok 0xFFFFFFFF /\
  (ObjectIDFromUint32 0xFFFFFFFF
     = {| Type_ := Proprietarymax; Instance := MaxInstance |}
   <-> Proprietarymax <> 0x400).
Proof.
  assert (Hwf : ObjectID_wf {| Type_ := Proprietarymax; Instance := MaxInstance |})
    by (unfold ObjectID_wf, Proprietarymax, MaxInstance; cbn; lia).
  split; [exact Hwf |]. split; [reflexivity |].
  apply (Encode_unpack_iff _ _ Hwf). reflexivity.
Defined.

(** X2. [Encode] is injective on the ObjectIDs whose type fits 10 bits:
    two of them that pack to the same value are equal. *)
Theorem Encode_injective (o1 o2 : ObjectID) (v : Z) :
  ObjectID_wf o1 -> ObjectID_wf o2 ->
  Type_ o1 <= Proprietarymax -> Type_ o2 <= Proprietarymax ->
  Encode o1 = Ok v -> Encode o2 = Ok v ->
  o1 = o2.
Proof.
  unfold Proprietarymax. intros Hwf1 Hwf2 Ht1 Ht2 H1 H2.
  pose proof (Encode_unpack o1 v Hwf1 H1) as E1.
  pose proof (Encode_unpack o2 v Hwf2 H2) as E2.
  destruct Hwf1 as [Hw1 _], Hwf2 as [Hw2 _].
  rewrite Z.mod_small in E1, E2 by lia.
  destruct o1, o2; cbn [Type_ Instance] in *. congruence.
Qed.

Lemma Encode_injective_witness :
  ObjectID_wf {| Type_ := BacnetDevice; Instance := 1234 |} /\
  Encode {| Type_ := BacnetDevice; Instance := 1234 |} = Ok 33555666 /\
  {| Type_ := BacnetDevice; Instance := 1234 |}
    = {| Type_ := 8; Instance := 1234 |}.
Proof.
  assert (Hwf : ObjectID_wf {| Type_ := BacnetDevice; Instance := 1234 |})
    by (unfold ObjectID_wf, BacnetDevice; cbn; lia).
  split; [exact Hwf |]. split; [reflexivity |].
  apply (Encode_injective _ _ 33555666 Hwf Hwf);
    try reflexivity; cbn; unfold BacnetDevice, Proprietarymax; lia.
Defined.

End ObjectID_more.

(** ** Address conversion on every input *)
Section Addressing_more.

Import bacnet.

Lemma byte_of_to_Z (b : byte) : byte_of_Z (byte_to_Z b) = b.
Proof.
  apply byte_to_Z_inj. rewrite byte_to_of_Z.
  apply Z.mod_small, byte_to_Z_range.
Qed.

Lemma byte_of_Z_mod (x y : Z) : x mod 256 = y mod 256 -> byte_of_Z x = byte_of_Z y.
Proof. unfold byte_of_Z. now intros ->. Qed.

Lemma BigEndian_Uint16_value (h l : byte) :
  binary.BigEndian_Uint16 [h; l] = byte_to_Z h * 256 + byte_to_Z l.
Proof.
  unfold binary.BigEndian_Uint16, index.
  change (Z.to_nat 1) with 1%nat. change (Z.to_nat 0) with 0%nat. cbn [nth].
  pose proof (byte_to_Z_range h) as Hh. pose proof (byte_to_Z_range l) as Hl.
  rewrite uint16_small by (rewrite Z.shiftl_mul_pow2 by lia; lia).
  rewrite lor_shiftl_small by (change (2 ^ 8) with 256; lia).
  reflexivity.
Qed.

Lemma BigEndian_bytes16_Uint16 (h l : byte) :
  binary.BigEndian_bytes16 (uint16 (binary.BigEndian_Uint16 [h; l])) = [h; l].
Proof.
  rewrite BigEndian_Uint16_value.
  pose proof (byte_to_Z_range h) as Hh. pose proof (byte_to_Z_range l) as Hl.
  rewrite uint16_small by lia. unfold binary.BigEndian_bytes16.
  rewrite Z.shiftr_div_pow2 by lia. change (2 ^ 8) with 256.
  f_equal; [| f_equal].
  - rewrite <- (byte_of_to_Z h) at 2. apply byte_of_Z_mod. f_equal.
    symmetry. apply Z.div_unique with (byte_to_Z l); lia.
  - rewrite <- (byte_of_to_Z l) at 2. apply byte_of_Z_mod.
    rewrite Z.add_comm, Z.mod_add by lia. reflexivity.
Qed.

(** The MAC for an IP slice that has neither 4 nor 16 bytes: [To16] gives
    nil, and only the tag 16 and the port are written. *)
Lemma AddressFromUDP_Mac_other (udp : net.UDPAddr) :
  len (net.IP_ udp) <> 4 -> len (net.IP_ udp) <> 16 ->
  Mac (AddressFromUDP udp) =
    x10 :: binary.BigEndian_bytes16 (uint16 (net.Port udp)).
Proof.
  intros H4 H16. unfold AddressFromUDP, net.To16, net.IPv4len, net.IPv6len.
  apply Z.eqb_neq in H4, H16. rewrite H4, H16. reflexivity.
Qed.

(** X3. For a UDP address whose IP has 4 or 16 bytes and any [int] port,
    [AddressFromUDP] followed by [UDPFromAddress] returns the same IP with
    the port reduced modulo 2^16 and an empty zone. *)
Theorem UDP_roundtrip_any_port (udp : net.UDPAddr) :
  len (net.IP_ udp) = 4 \/ len (net.IP_ udp) = 16 ->
  UDPFromAddress (AddressFromUDP udp) =
    {| net.IP_ := net.IP_ udp; net.Port := net.Port udp mod 2 ^ 16;
       net.Zone := "" |}.
Proof.
  intros Hlen.
  pose proof (AddressFromUDP_Mac_v4 udp) as H4.
  pose proof (AddressFromUDP_Mac_v6 udp) as H16.
  pose proof (Z.mod_pos_bound (net.Port udp) (2 ^ 16) ltac:(lia)) as Hp.
  destruct (AddressFromUDP udp) as [mac n a]. cbn [Mac] in H4, H16.
  destruct Hlen as [Hlen | Hlen].
  - rewrite (H4 Hlen). apply UDPFromAddress_layout; auto.
  - rewrite (H16 Hlen). apply UDPFromAddress_layout; auto.
Qed.

Lemma UDP_roundtrip_any_port_witness :
  (len (net.v4InV6Prefix ++ [xc0; x00; x02; x05]) = 4 \/
   len (net.v4InV6Prefix ++ [xc0; x00; x02; x05]) = 16) /\
  UDPFromAddress
    (AddressFromUDP {| net.IP_ := net.v4InV6Prefix ++ [xc0; x00; x02; x05];
                       net.Port := 65536 + 47808; net.Zone := "eth0" |})
  = {| net.IP_ := net.v4InV6Prefix ++ [xc0; x00; x02; x05];
       net.Port := (65536 + 47808) mod 2 ^ 16; net.Zone := "" |}.
Proof.
  split; [right; reflexivity |].
  apply (UDP_roundtrip_any_port
           {| net.IP_ := net.v4InV6Prefix ++ [xc0; x00; x02; x05];
              net.Port := 65536 + 47808; net.Zone := "eth0" |}).
  right; reflexivity.
Defined.

(** X4. For a UDP address whose IP has neither 4 nor 16 bytes (a nil IP
    for instance), [AddressFromUDP] builds the 3-byte MAC [16, hi, lo],
    which is malformed, and [UDPFromAddress] on it returns the zero
    [net.UDPAddr]: the port is lost. *)
Theorem UDP_roundtrip_other_length (udp : net.UDPAddr) :
  len (net.IP_ udp) <> 4 -> len (net.IP_ udp) <> 16 ->
  len (Mac (AddressFromUDP udp)) = 3 /\
  spec.malformed_address (AddressFromUDP udp) = true /\
  UDPFromAddress (AddressFromUDP udp) = net.zeroUDPAddr.
Proof.
  intros H4 H16. pose proof (AddressFromUDP_Mac_other udp H4 H16) as Hmac.
  unfold spec.malformed_address, UDPFromAddress. rewrite Hmac.
  repeat split; reflexivity.
Qed.

Lemma UDP_roundtrip_other_length_witness :
  len (@nil byte) <> 4 /\ len (@nil byte) <> 16 /\
  len (Mac (AddressFromUDP {| net.IP_ := []; net.Port := 47808;
                              net.Zone := "" |})) = 3 /\
  spec.malformed_address
    (AddressFromUDP {| net.IP_ := []; net.Port := 47808; net.Zone := "" |})
    = true /\
  UDPFromAddress
    (AddressFromUDP {| net.IP_ := []; net.Port := 47808; net.Zone := "" |})
  = net.zeroUDPAddr.
Proof.
  split; [discriminate |]. split; [discriminate |].
  apply (UDP_roundtrip_other_length
           {| net.IP_ := []; net.Port := 47808; net.Zone := "" |});
    discriminate.
Defined.

(** A well-formed MAC, taken apart. *)
Lemma malformed_false_inv (addr : Address) :
  spec.malformed_address addr = false ->
  exists (tag h l : byte) (ip rest : list byte),
    Mac addr = tag :: ip ++ h :: l :: rest /\
    len ip = byte_to_Z tag /\
    (byte_to_Z tag = 4 \/ byte_to_Z tag = 16).
Proof.
  unfold spec.malformed_address.
  destruct (Mac addr) as [| tag mac] eqn:Hmac; [discriminate |].
  intros Hwf. apply orb_false_elim in Hwf as [Hlen Hkind].
  apply Z.ltb_ge in Hlen. rewrite len_cons in Hlen.
  pose proof (byte_to_Z_range tag) as Htag.
  assert (Hsplit : mac = take (Z.to_nat (byte_to_Z tag)) mac
                         ++ drop (Z.to_nat (byte_to_Z tag)) mac)
    by (symmetry; apply take_drop).
  assert (Hdrop : (2 <= length (drop (Z.to_nat (byte_to_Z tag)) mac))%nat)
    by (rewrite length_drop; unfold len in Hlen; lia).
  destruct (drop (Z.to_nat (byte_to_Z tag)) mac) as [| h [| l rest]];
    cbn in Hdrop; try lia.
  exists tag, h, l, (take (Z.to_nat (byte_to_Z tag)) mac), rest.
  split; [now rewrite <- Hsplit |]. split.
  - unfold len in *. rewrite length_take. lia.
  - apply andb_false_iff in Hkind.
    destruct Hkind as [H | H]; apply negb_false_iff, Z.eqb_eq in H; auto.
Qed.

Lemma UDPFromAddress_wellformed (tag h l : byte) (ip rest : list byte)
    (net_ : Z) (adr : list byte) :
  len ip = byte_to_Z tag ->
  byte_to_Z tag = 4 \/ byte_to_Z tag = 16 ->
  UDPFromAddress {| Mac := tag :: ip ++ h :: l :: rest; Net := net_; Adr := adr |}
  = {| net.IP_ := ip; net.Port := binary.BigEndian_Uint16 [h; l];
       net.Zone := "" |}.
Proof.
  intros Hlen Htag. unfold UDPFromAddress. cbn [Mac].
  change (index (tag :: ip ++ h :: l :: rest) 0) with tag.
  assert (Hmac : len (tag :: ip ++ h :: l :: rest) = 1 + len ip + 2 + len rest).
  { rewrite len_cons, len_app, !len_cons. lia. }
  pose proof (len_nonneg ip). pose proof (len_nonneg rest).
  rewrite Hmac.
  destruct (Z.ltb_spec (1 + len ip + 2 + len rest) 2) as [Hbad | _]; [lia |].
  replace (negb (byte_to_Z tag =? 4) && negb (byte_to_Z tag =? 16)) with false
    by (destruct Htag as [-> | ->]; reflexivity).
  rewrite <- Hlen.
  destruct (Z.ltb_spec (1 + len ip + 2 + len rest) (1 + len ip + 2))
    as [Hbad | _]; [lia |].
  cbn [andb]. rewrite slice_ip. f_equal.
  unfold slice, len.
  replace (Z.to_nat (1 + Z.of_nat (length ip) + 2 - (1 + Z.of_nat (length ip))))
    with 2%nat by lia.
  replace (Z.to_nat (1 + Z.of_nat (length ip))) with (S (length ip)) by lia.
  cbn [drop]. rewrite drop_app_length. reflexivity.
Qed.

(** X5. For every Address that is not malformed, [UDPFromAddress] followed
    by [AddressFromUDP] gives back the MAC cut to its first
    1 + length-tag + 2 bytes, with network number 0 and no remote
    address: a MAC of exactly that length comes back unchanged. *)
Theorem Address_roundtrip_back (addr : Address) :
  spec.malformed_address addr = false ->
  AddressFromUDP (UDPFromAddress addr) =
    {| Mac := take (Z.to_nat (1 + byte_to_Z (index (Mac addr) 0) + 2)) (Mac addr);
       Net := 0; Adr := [] |}.
Proof.
  intros Hwf.
  destruct (malformed_false_inv addr Hwf)
    as (tag & h & l & ip & rest & Hmac & Hlen & Htag).
  destruct addr as [mac n a]. cbn [Mac] in *. subst mac.
  rewrite (UDPFromAddress_wellformed tag h l ip rest n a Hlen Htag).
  change (index (tag :: ip ++ h :: l :: rest) 0) with tag.
  pose proof (byte_to_Z_range tag) as Hr.
  replace (Z.to_nat (1 + byte_to_Z tag + 2)) with (S (length ip + 2))
    by (unfold len in Hlen; lia).
  cbn [take].
  rewrite take_app_add'; [| reflexivity]. cbn [take].
  unfold AddressFromUDP. cbn [net.IP_ net.Port].
  rewrite BigEndian_bytes16_Uint16.
  unfold net.To4, net.To16, net.IPv4len, net.IPv6len. rewrite Hlen.
  destruct Htag as [Ht | Ht]; rewrite Ht; cbn [Z.eqb Pos.eqb app];
    do 2 f_equal; apply byte_to_Z_inj; rewrite Ht; reflexivity.
Qed.

Lemma Address_roundtrip_back_witness :
  spec.malformed_address
    {| Mac := [x04; xc0; x00; x02; x05; xba; xc0; x63]; Net := 7;
       Adr := [x2a] |} = false /\
  AddressFromUDP
    (UDPFromAddress {| Mac := [x04; xc0; x00; x02; x05; xba; xc0; x63];
                       Net := 7; Adr := [x2a] |})
  = {| Mac := [x04; xc0; x00; x02; x05; xba; xc0]; Net := 0; Adr := [] |}.
Proof.
  split; [reflexivity |].
  apply (Address_roundtrip_back
           {| Mac := [x04; xc0; x00; x02; x05; xba; xc0; x63]; Net := 7;
              Adr := [x2a] |}).
  reflexivity.
Defined.

Lemma UDPFromAddress_guards (addr : Address) :
  spec.malformed_address addr = true -> UDPFromAddress addr = net.zeroUDPAddr.
Proof.
  unfold spec.malformed_address, UDPFromAddress.
  destruct (Mac addr) as [| tag rest]; [reflexivity |].
  change (index (tag :: rest) 0) with tag. intros Hbad.
  destruct (len (tag :: rest) <? 2); [reflexivity |].
  destruct (negb (byte_to_Z tag =? 4) && negb (byte_to_Z tag =? 16));
    [reflexivity |].
  rewrite orb_false_r in Hbad. now rewrite Hbad.
Qed.

(** X6. [UDPFromAddress] returns the zero [net.UDPAddr] on the malformed
    addresses and on no other. *)
Theorem UDPFromAddress_zero_iff (addr : Address) :
  UDPFromAddress addr = net.zeroUDPAddr <-> spec.malformed_address addr = true.
Proof.
  split; [| apply UDPFromAddress_guards].
  intros Hzero. destruct (spec.malformed_address addr) eqn:Hm; [reflexivity |].
  destruct (UDPFromAddress_parsed addr Hm) as [H | H];
    rewrite Hzero in H; discriminate H.
Qed.

(** X7. Whatever the Address, the [net.UDPAddr] that [UDPFromAddress]
    returns has a port in [[0, 65535]], an IP of 0, 4 or 16 bytes and an
    empty zone. *)
Theorem UDPFromAddress_range (addr : Address) :
  0 <= net.Port (UDPFromAddress addr) < 2 ^ 16 /\
  (len (net.IP_ (UDPFromAddress addr)) = 0 \/
   len (net.IP_ (UDPFromAddress addr)) = 4 \/
   len (net.IP_ (UDPFromAddress addr)) = 16) /\
  net.Zone (UDPFromAddress addr) = "".
Proof.
  destruct (spec.malformed_address addr) eqn:Hm.
  - apply UDPFromAddress_guards in Hm. rewrite Hm. cbn.
    repeat split; auto; lia.
  - destruct (malformed_false_inv addr Hm)
      as (tag & h & l & ip & rest & Hmac & Hlen & Htag).
    destruct addr as [mac n a]. cbn [Mac] in *. subst mac.
    rewrite (UDPFromAddress_wellformed tag h l ip rest n a Hlen Htag).
    cbn [net.IP_ net.Port net.Zone]. rewrite BigEndian_Uint16_value.
    pose proof (byte_to_Z_range h). pose proof (byte_to_Z_range l).
    repeat split; lia.
Qed.

End Addressing_more.

(** ** The broadcast address *)
Section Broadcast.

Import bacip.

(** [To4] returns nil or exactly four bytes. *)
Lemma To4_nil_or_4 (ip : net.IP) : net.To4 ip = [] \/ len (net.To4 ip) = 4.
Proof.
  unfold net.To4, net.IPv4len, net.IPv6len.
  destruct (Z.eqb_spec (len ip) 4) as [H4 | _]; [now right |].
  destruct (Z.eqb_spec (len ip) 16) as [H16 | _]; cbn [andb]; [| now left].
  destruct (net.isZeros (slice ip 0 10) && _ && _); [| now left].
  right. rewrite length_slice; lia.
Qed.

Lemma To4_of_4 (ip : net.IP) : len ip = 4 -> net.To4 ip = ip.
Proof. unfold net.To4, net.IPv4len. now intros ->. Qed.

Lemma list_of_len_4 {A} (l : list A) :
  len l = 4 -> exists a b c d, l = [a; b; c; d].
Proof.
  unfold len. destruct l as [| a [| b [| c [| d [| e l]]]]]; cbn; try lia.
  eauto.
Qed.

Lemma lor_mod_256 (x y : Z) : Z.lor x y mod 256 = Z.lor (x mod 256) (y mod 256).
Proof.
  change 256 with (2 ^ 8).
  rewrite <- !Z.land_ones by lia. apply Z.land_lor_distr_l.
Qed.

Lemma lor_byte_range (x y : Z) :
  0 <= x < 256 -> 0 <= y < 256 -> 0 <= Z.lor x y < 256.
Proof.
  intros Hx Hy.
  rewrite <- (Z.mod_small x 256), <- (Z.mod_small y 256), <- lor_mod_256
    by assumption.
  apply Z.mod_pos_bound. lia.
Qed.

Lemma byte_to_Z_not (m : byte) : byte_to_Z (byte_not m) = 255 - byte_to_Z m.
Proof.
  unfold byte_not. rewrite byte_to_of_Z.
  pose proof (byte_to_Z_range m) as Hm.
  symmetry. apply Z.mod_unique with (-1); unfold Z.lnot, Z.pred; lia.
Qed.

Lemma byte_to_Z_or (a b : byte) :
  byte_to_Z (byte_or a b) = Z.lor (byte_to_Z a) (byte_to_Z b).
Proof.
  unfold byte_or. rewrite byte_to_of_Z. apply Z.mod_small.
  apply lor_byte_range; apply byte_to_Z_range.
Qed.

(** The big-endian value of four bytes, as a sum. *)
Lemma BigEndian_Uint32_value (a b c d : byte) :
  binary.BigEndian_Uint32 [a; b; c; d] =
    Some (byte_to_Z a * 2 ^ 24 + byte_to_Z b * 2 ^ 16
          + byte_to_Z c * 2 ^ 8 + byte_to_Z d).
Proof.
  unfold binary.BigEndian_Uint32, index.
  change (len [a; b; c; d] <? 4) with false. cbn iota.
  change (Z.to_nat 3) with 3%nat. change (Z.to_nat 2) with 2%nat.
  change (Z.to_nat 1) with 1%nat. change (Z.to_nat 0) with 0%nat. cbn [nth].
  pose proof (byte_to_Z_range a). pose proof (byte_to_Z_range b).
  pose proof (byte_to_Z_range c). pose proof (byte_to_Z_range d).
  rewrite !uint32_small by (rewrite Z.shiftl_mul_pow2 by lia; lia).
  rewrite (lor_shiftl_small 8) by lia.
  rewrite (lor_shiftl_small 16) by lia.
  rewrite (lor_shiftl_small 24) by lia.
  f_equal. lia.
Qed.

(** [^m] on the value of four bytes is the value of the complemented
    bytes. *)
Lemma not32_value (a b c d : Z) :
  0 <= a < 256 -> 0 <= b < 256 -> 0 <= c < 256 -> 0 <= d < 256 ->
  not32 (a * 2 ^ 24 + b * 2 ^ 16 + c * 2 ^ 8 + d) =
    (255 - a) * 2 ^ 24 + (255 - b) * 2 ^ 16 + (255 - c) * 2 ^ 8 + (255 - d).
Proof.
  intros Ha Hb Hc Hd. unfold not32, uint32.
  symmetry. apply Z.mod_unique with (-1); unfold Z.lnot, Z.pred; lia.
Qed.

(** One byte of the [|] of two 32-bit values. *)
Lemma byte_of_lor_shiftr (x y n a c : Z) :
  0 <= n ->
  (x / 2 ^ n) mod 256 = a -> (y / 2 ^ n) mod 256 = c ->
  byte_of_Z (Z.shiftr (Z.lor x y) n) = byte_of_Z (Z.lor a c).
Proof.
  intros Hn Hx Hy. apply byte_of_Z_mod.
  rewrite Z.shiftr_lor, !lor_mod_256, !Z.shiftr_div_pow2 by assumption.
  rewrite Hx, Hy.
  assert (Ha : 0 <= a < 256) by (subst a; apply Z.mod_pos_bound; lia).
  assert (Hc : 0 <= c < 256) by (subst c; apply Z.mod_pos_bound; lia).
  now rewrite (Z.mod_small a), (Z.mod_small c).
Qed.

Lemma byte_sum_div (a b c d : Z) :
  0 <= a < 256 -> 0 <= b < 256 -> 0 <= c < 256 -> 0 <= d < 256 ->
  let v := a * 2 ^ 24 + b * 2 ^ 16 + c * 2 ^ 8 + d in
  (v / 2 ^ 24) mod 256 = a /\ (v / 2 ^ 16) mod 256 = b /\
  (v / 2 ^ 8) mod 256 = c /\ (v / 2 ^ 0) mod 256 = d.
Proof.
  intros Ha Hb Hc Hd v. subst v.
  change (2 ^ 24) with 16777216. change (2 ^ 16) with 65536.
  change (2 ^ 8) with 256. change (2 ^ 0) with 1.
  repeat split; Z.div_mod_to_equations; lia.
Qed.

(** [broadcastAddr] on an IPv4 network, byte by byte. *)
Lemma broadcastAddr_bytes (n : net.IPNet) (a0 a1 a2 a3 m0 m1 m2 m3 : byte) :
  net.To4 (net.IPNet_IP n) = [a0; a1; a2; a3] ->
  net.To4 (net.Mask n) = [m0; m1; m2; m3] ->
  broadcastAddr n =
    Return (Ok [byte_or a0 (byte_not m0); byte_or a1 (byte_not m1);
                byte_or a2 (byte_not m2); byte_or a3 (byte_not m3)]).
Proof.
  intros Hip Hmask. unfold broadcastAddr. rewrite Hip, Hmask.
  rewrite !BigEndian_Uint32_value. cbn [length replicate].
  unfold binary.BigEndian_PutUint32.
  change (len [x00; x00; x00; x00] <? 4) with false. cbn iota.
  cbn [drop app].
  pose proof (byte_to_Z_range a0). pose proof (byte_to_Z_range a1).
  pose proof (byte_to_Z_range a2). pose proof (byte_to_Z_range a3).
  pose proof (byte_to_Z_range m0). pose proof (byte_to_Z_range m1).
  pose proof (byte_to_Z_range m2). pose proof (byte_to_Z_range m3).
  rewrite not32_value by assumption.
  destruct (byte_sum_div (byte_to_Z a0) (byte_to_Z a1) (byte_to_Z a2)
              (byte_to_Z a3)) as (Ea0 & Ea1 & Ea2 & Ea3); try assumption.
  destruct (byte_sum_div (255 - byte_to_Z m0) (255 - byte_to_Z m1)
              (255 - byte_to_Z m2) (255 - byte_to_Z m3))
    as (Em0 & Em1 & Em2 & Em3); try lia.
  unfold byte_or. rewrite !byte_to_Z_not.
  do 2 f_equal. f_equal; [| f_equal; [| f_equal; [| f_equal]]].
  - now apply byte_of_lor_shiftr.
  - now apply byte_of_lor_shiftr.
  - now apply byte_of_lor_shiftr.
  - rewrite <- (Z.shiftr_0_r (Z.lor _ _)). now apply byte_of_lor_shiftr.
Qed.

(** What a successful [broadcastAddr] was computed from. *)
Lemma broadcastAddr_Ok_inv (n : net.IPNet) (b : net.IP) :
  broadcastAddr n = Return (Ok b) ->
  exists a0 a1 a2 a3 m0 m1 m2 m3 : byte,
    net.To4 (net.IPNet_IP n) = [a0; a1; a2; a3] /\
    net.To4 (net.Mask n) = [m0; m1; m2; m3] /\
    b = [byte_or a0 (byte_not m0); byte_or a1 (byte_not m1);
         byte_or a2 (byte_not m2); byte_or a3 (byte_not m3)].
Proof.
  intros Hb.
  destruct (To4_nil_or_4 (net.IPNet_IP n)) as [Hip | Hip].
  { unfold broadcastAddr in Hb. rewrite Hip in Hb. discriminate. }
  destruct (To4_nil_or_4 (net.Mask n)) as [Hm | Hm].
  { unfold broadcastAddr in Hb. rewrite Hm in Hb.
    destruct (net.To4 (net.IPNet_IP n)) as [| x xs]; [discriminate |].
    change (binary.BigEndian_Uint32 []) with (@None Z) in Hb.
    destruct (binary.BigEndian_Uint32 (x :: xs)); discriminate. }
  destruct (list_of_len_4 _ Hip) as (a0 & a1 & a2 & a3 & Ea).
  destruct (list_of_len_4 _ Hm) as (m0 & m1 & m2 & m3 & Em).
  exists a0, a1, a2, a3, m0, m1, m2, m3.
  rewrite (broadcastAddr_bytes n _ _ _ _ _ _ _ _ Ea Em) in Hb.
  injection Hb as <-. auto.
Qed.

(** X8. On an IPv4 network (address [a0.a1.a2.a3], mask [m0.m1.m2.m3],
    each in 4-byte or IPv4-mapped 16-byte form), [broadcastAddr] returns
    the four bytes [a_k | ^m_k]. *)
Theorem broadcastAddr_IPv4 (n : net.IPNet) (a0 a1 a2 a3 m0 m1 m2 m3 : byte) :
  net.To4 (net.IPNet_IP n) = [a0; a1; a2; a3] ->
  net.To4 (net.Mask n) = [m0; m1; m2; m3] ->
  broadcastAddr n =
    Return (Ok [byte_or a0 (byte_not m0); byte_or a1 (byte_not m1);
                byte_or a2 (byte_not m2); byte_or a3 (byte_not m3)]).
Proof. apply broadcastAddr_bytes. Qed.

Lemma broadcastAddr_IPv4_witness :
  net.To4 (net.v4InV6Prefix ++ [xc0; xa8; x01; x0a]) = [xc0; xa8; x01; x0a] /\
  net.To4 [xff; xff; xff; x00] = [xff; xff; xff; x00] /\
  broadcastAddr {| net.IPNet_IP := net.v4InV6Prefix ++ [xc0; xa8; x01; x0a];
                   net.Mask := [xff; xff; xff; x00] |}
  = Return (Ok [xc0; xa8; x01; xff]).
Proof.
  split; [reflexivity |]. split; [reflexivity |].
  apply (broadcastAddr_IPv4
           {| net.IPNet_IP := net.v4InV6Prefix ++ [xc0; xa8; x01; x0a];
              net.Mask := [xff; xff; xff; x00] |}
           xc0 xa8 x01 x0a xff xff xff x00); reflexivity.
Defined.

End Broadcast.

(** ** Laws of the broadcast address *)
Section Broadcast_laws.

Import bacip.

Lemma byte_high_bits (x i : Z) : 0 <= x < 256 -> 8 <= i -> Z.testbit x i = false.
Proof.
  intros Hx Hi. destruct (Z.eq_dec x 0) as [-> | Hne]; [apply Z.bits_0 |].
  apply Z.bits_above_log2; [lia |].
  apply Z.lt_le_trans with 8; [| assumption].
  apply Z.log2_lt_pow2; lia.
Qed.

Lemma compl_bits (m i : Z) :
  0 <= m < 256 -> 0 <= i ->
  Z.testbit (255 - m) i = negb (Z.testbit m i) && (i <? 8).
Proof.
  intros Hm Hi.
  replace (255 - m) with (Z.land (Z.lnot m) (Z.ones 8)).
  - now rewrite Z.land_spec, Z.lnot_spec, Z.testbit_ones_nonneg by lia.
  - rewrite Z.land_ones by lia.
    symmetry. apply Z.mod_unique with (-1); unfold Z.lnot, Z.pred; lia.
Qed.

Lemma land_lor_compl (a m : Z) :
  0 <= a < 256 -> 0 <= m < 256 ->
  Z.land (Z.lor a (255 - m)) m = Z.land a m.
Proof.
  intros Ha Hm. apply Z.bits_inj'; intros i Hi.
  rewrite !Z.land_spec, Z.lor_spec, compl_bits by assumption.
  destruct (Z.testbit a i), (Z.testbit m i), (i <? 8); reflexivity.
Qed.

Lemma lor_lor_compl (a m : Z) :
  0 <= a < 256 -> 0 <= m < 256 ->
  Z.lor (Z.lor a (255 - m)) m = 255.
Proof.
  intros Ha Hm. apply Z.bits_inj'; intros i Hi.
  change 255 with (Z.ones 8).
  rewrite !Z.lor_spec, compl_bits, Z.testbit_ones_nonneg by lia.
  destruct (Z.ltb_spec i 8) as [Hlt | Hge].
  - destruct (Z.testbit a i), (Z.testbit m i); reflexivity.
  - now rewrite (byte_high_bits a i), (byte_high_bits m i) by assumption.
Qed.

Lemma byte_and_or_not (a m : byte) :
  byte_and (byte_or a (byte_not m)) m = byte_and a m.
Proof.
  unfold byte_and. rewrite byte_to_Z_or, byte_to_Z_not.
  now rewrite land_lor_compl by apply byte_to_Z_range.
Qed.

Lemma byte_or_or_not (a m : byte) : byte_or (byte_or a (byte_not m)) m = xff.
Proof.
  unfold byte_or at 1. rewrite byte_to_Z_or, byte_to_Z_not.
  now rewrite lor_lor_compl by apply byte_to_Z_range.
Qed.

Lemma byte_or_absorb (a c : byte) : byte_or (byte_or a c) c = byte_or a c.
Proof.
  unfold byte_or at 1. rewrite byte_to_Z_or.
  now rewrite <- Z.lor_assoc, Z.lor_diag.
Qed.

(** X9. When [broadcastAddr] returns an address, that address agrees with
    the network's IP on every bit of the mask and has every bit outside
    the mask set: [b & mask = ip & mask] and [b | mask = 255.255.255.255],
    byte by byte. *)
Theorem broadcastAddr_mask (n : net.IPNet) (b : net.IP) :
  broadcastAddr n = Return (Ok b) ->
  zip_with byte_and b (net.To4 (net.Mask n))
    = zip_with byte_and (net.To4 (net.IPNet_IP n)) (net.To4 (net.Mask n)) /\
  zip_with byte_or b (net.To4 (net.Mask n)) = [xff; xff; xff; xff].
Proof.
  intros Hb.
  destruct (broadcastAddr_Ok_inv n b Hb)
    as (a0 & a1 & a2 & a3 & m0 & m1 & m2 & m3 & -> & -> & ->).
  cbn [zip_with]. rewrite !byte_and_or_not, !byte_or_or_not. auto.
Qed.

Lemma broadcastAddr_mask_witness :
  broadcastAddr {| net.IPNet_IP := [x0a; x01; x02; x03];
                   net.Mask := [xff; xff; xf0; x00] |}
    = Return (Ok [x0a; x01; x0f; xff]) /\
  zip_with byte_and [x0a; x01; x0f; xff] [xff; xff; xf0; x00]
    = zip_with byte_and [x0a; x01; x02; x03] [xff; xff; xf0; x00] /\
  zip_with byte_or [x0a; x01; x0f; xff] [xff; xff; xf0; x00]
    = [xff; xff; xff; xff].
Proof.
  split; [reflexivity |].
  apply (broadcastAddr_mask
           {| net.IPNet_IP := [x0a; x01; x02; x03];
              net.Mask := [xff; xff; xf0; x00] |} [x0a; x01; x0f; xff]).
  reflexivity.
Defined.

(** X10. [broadcastAddr] is idempotent: the broadcast address of a
    network, taken as the network's IP under the same mask, is its own
    broadcast address. *)
Theorem broadcastAddr_idempotent (n : net.IPNet) (b : net.IP) :
  broadcastAddr n = Return (Ok b) ->
  broadcastAddr {| net.IPNet_IP := b; net.Mask := net.Mask n |}
    = Return (Ok b).
Proof.
  intros Hb.
  destruct (broadcastAddr_Ok_inv n b Hb)
    as (a0 & a1 & a2 & a3 & m0 & m1 & m2 & m3 & Hip & Hmask & ->).
  set (b := [byte_or a0 (byte_not m0); byte_or a1 (byte_not m1);
             byte_or a2 (byte_not m2); byte_or a3 (byte_not m3)]).
  assert (Hb4 : net.To4 b = b) by (apply To4_of_4; reflexivity).
  rewrite (broadcastAddr_bytes {| net.IPNet_IP := b; net.Mask := net.Mask n |}
             _ _ _ _ m0 m1 m2 m3 Hb4 Hmask).
  subst b. now rewrite !byte_or_absorb.
Qed.

Lemma broadcastAddr_idempotent_witness :
  broadcastAddr {| net.IPNet_IP := [x0a; x01; x02; x03];
                   net.Mask := [xff; xff; xf0; x00] |}
    = Return (Ok [x0a; x01; x0f; xff]) /\
  broadcastAddr {| net.IPNet_IP := [x0a; x01; x0f; xff];
                   net.Mask := [xff; xff; xf0; x00] |}
    = Return (Ok [x0a; x01; x0f; xff]).
Proof.
  split; [reflexivity |].
  apply (broadcastAddr_idempotent
           {| net.IPNet_IP := [x0a; x01; x02; x03];
              net.Mask := [xff; xff; xf0; x00] |} [x0a; x01; x0f; xff]).
  reflexivity.
Defined.

(** X11. The three outcomes of [broadcastAddr]: an error when the
    network's IP is not an IPv4 address ([To4] is nil); a panic when the
    IP is IPv4 but the mask has no 4-byte form (a 16-byte mask, as of an
    IPv6 prefix, or an empty one); four bytes in every other case. *)
Theorem broadcastAddr_outcome (n : net.IPNet) :
  match net.To4 (net.IPNet_IP n), net.To4 (net.Mask n) with
  | [], _ =>
    broadcastAddr n =
      Return (Err (errorString "does not support IPv6 addresses"))
  | _ :: _, [] => broadcastAddr n = Panic
  | _ :: _, _ :: _ =>
    exists b, broadcastAddr n = Return (Ok b) /\ len b = 4
  end.
Proof.
  destruct (To4_nil_or_4 (net.IPNet_IP n)) as [Hip | Hip].
  { unfold broadcastAddr. now rewrite Hip. }
  destruct (To4_nil_or_4 (net.Mask n)) as [Hm | Hm].
  { unfold broadcastAddr. rewrite Hm.
    destruct (net.To4 (net.IPNet_IP n)) as [| x xs]; [reflexivity |].
    change (binary.BigEndian_Uint32 []) with (@None Z).
    now destruct (binary.BigEndian_Uint32 (x :: xs)). }
  destruct (list_of_len_4 _ Hip) as (a0 & a1 & a2 & a3 & Ea).
  destruct (list_of_len_4 _ Hm) as (m0 & m1 & m2 & m3 & Em).
  rewrite (broadcastAddr_bytes n _ _ _ _ _ _ _ _ Ea Em), Ea, Em.
  eexists. split; reflexivity.
Qed.

(** The mask of an IPv6 prefix under an IPv4 address: the call panics. *)
Example broadcastAddr_panics :
  broadcastAddr {| net.IPNet_IP := [xc0; xa8; x01; x0a];
                   net.Mask := replicate 8 xff ++ replicate 8 x00 |} = Panic.
Proof. reflexivity. Qed.

(** X12. [tryParse] returns true only with both addresses of the client
    set to four bytes, the IP to the 4-byte form of the parsed address and
    the broadcast address to that of the parsed network; when it returns
    false the client is unchanged.  The port is never touched. *)
Theorem tryParse_result
    (ParseCIDR : string -> result error (net.IP * net.IPNet))
    (c c' : Client) (cidr : string) (ok : bool) :
  tryParse ParseCIDR c cidr = Some (c', ok) ->
  udpPort c' = udpPort c /\
  if ok then
    exists ip ipnet,
      ParseCIDR cidr = Ok (ip, ipnet) /\
      ipAddress c' = net.To4 ip /\ len (ipAddress c') = 4 /\
      broadcastAddr ipnet = Return (Ok (broadcastAddress c')) /\
      len (broadcastAddress c') = 4
  else c' = c.
Proof.
  unfold tryParse.
  destruct (ParseCIDR cidr) as [[ip ipnet] | e] eqn:Hparse;
    [| intros [= <- <-]; auto].
  destruct (To4_nil_or_4 ip) as [Hip | Hip].
  { rewrite Hip. intros [= <- <-]; auto. }
  destruct (net.To4 ip) as [| x xs] eqn:Hto4; [intros [= <- <-]; auto |].
  destruct (broadcastAddr ipnet) as [[b | e] |] eqn:Hb;
    [| intros [= <- <-]; auto | discriminate].
  intros [= <- <-]. cbn [udpPort ipAddress broadcastAddress].
  split; [reflexivity |]. exists ip, ipnet.
  repeat split; auto.
  destruct (broadcastAddr_Ok_inv ipnet b Hb)
    as (a0 & a1 & a2 & a3 & m0 & m1 & m2 & m3 & _ & _ & ->).
  reflexivity.
Qed.

Lemma tryParse_result_witness :
  let ParseCIDR := fun _ : string =>
    Ok (net.v4InV6Prefix ++ [xc0; xa8; x01; x0a],
        {| net.IPNet_IP := [xc0; xa8; x01; x00];
           net.Mask := [xff; xff; xff; x00] |}) in
  let c := {| ipAddress := []; broadcastAddress := []; udpPort := 47808 |} in
  let c' := {| ipAddress := [xc0; xa8; x01; x0a];
               broadcastAddress := [xc0; xa8; x01; xff];
               udpPort := 47808 |} in
  tryParse ParseCIDR c "192.168.1.10/24" = Some (c', true) /\
  udpPort c' = udpPort c /\
  exists ip ipnet,
    ParseCIDR "192.168.1.10/24" = Ok (ip, ipnet) /\
    ipAddress c' = net.To4 ip /\ len (ipAddress c') = 4 /\
    broadcastAddr ipnet = Return (Ok (broadcastAddress c')) /\
    len (broadcastAddress c') = 4.
Proof.
  intros ParseCIDR c c'. split; [reflexivity |].
  apply (tryParse_result ParseCIDR c c' "192.168.1.10/24" true).
  reflexivity.
Defined.

End Broadcast_laws.

(** ** Dispatch of received frames *)
Section Dispatch.

Import bacip.

Implicit Types (transactions : gmap Z Transaction) (src : net.UDPAddr).
Implicit Types (bvlc : BVLC) (err : option UnmarshalError).

Lemma is_reply_test (apdu : APDU) :
  bool_decide (DataType apdu = ComplexAck)
  || bool_decide (DataType apdu = SimpleAck)
  || bool_decide (DataType apdu = Error) = true <-> spec.is_reply apdu.
Proof.
  unfold spec.is_reply. rewrite !orb_true_iff, !bool_decide_eq_true. tauto.
Qed.

(** X13. The subscription callback is called with the frame and its UDP
    source exactly when a callback is installed, the decoder did not fail
    with not-BACnet/IP and the frame carries an APDU: whatever the
    data-type, replies included, and whether or not a transaction is
    registered. *)
Theorem handleMessage_notifies subscribed transactions src bvlc err
    (bvlc' : BVLC) (src' : net.UDPAddr) :
  Notify bvlc' src' ∈ (handleMessage subscribed transactions src bvlc err).1
  <->
  subscribed = true /\ err <> Some ErrNotBAcnetIP /\
  is_Some (ADPU (NPDU_ bvlc)) /\ bvlc' = bvlc /\ src' = src.
Proof.
  unfold handleMessage.
  destruct err as [[| |] |], (ADPU (NPDU_ bvlc)) as [apdu |], subscribed;
    cbn [fst];
    try destruct (_ || _); cbn [fst];
    try destruct (transactions !! InvokeID apdu) as [[| e] |]; cbn [fst app];
    rewrite ?elem_of_cons, ?elem_of_nil, ?is_Some_alt;
    intuition (try discriminate; congruence).
Qed.

(** X14. A reply is sent on a transaction's sink exactly when the frame
    carries an APDU of data-type complex-ack, simple-ack or error, a
    transaction is registered under the APDU's invoke id and its sink
    takes the reply; the reply sent is that APDU, under that id.  Frames
    of the other data-types are never delivered. *)
Theorem handleMessage_delivers subscribed transactions src bvlc err
    (invokeID : Z) (apdu : APDU) :
  Deliver invokeID apdu
    ∈ (handleMessage subscribed transactions src bvlc err).1
  <->
  err <> Some ErrNotBAcnetIP /\
  ADPU (NPDU_ bvlc) = Some apdu /\ spec.is_reply apdu /\
  invokeID = InvokeID apdu /\
  transactions !! invokeID = Some TxReceiving.
Proof.
  unfold handleMessage.
  destruct err as [[| |] |]; cbn [fst];
    [rewrite elem_of_nil; intuition congruence | ..].
  all: destruct (ADPU (NPDU_ bvlc)) as [a |] eqn:Ha; cbn [fst];
    [| rewrite list_elem_of_singleton; intuition (try discriminate; congruence)].
  all: pose proof (is_reply_test a) as Hr; destruct (_ || _);
    [destruct (transactions !! InvokeID a) as [[| e] |] eqn:Htx |];
    destruct subscribed; cbn [fst app];
    rewrite ?elem_of_cons, ?elem_of_nil;
    intuition (simplify_eq; eauto; try congruence).
  all: match goal with
       | H : spec.is_reply ?a -> false = true, H' : spec.is_reply ?a |- _ =>
         discriminate (H H')
       end.
Qed.

(** X15. A decoder error other than not-BACnet/IP (truncated frame,
    unknown service) changes nothing: the frame left by the decoder is
    processed as if decoding had succeeded, and no error is returned on
    its account. *)
Theorem handleMessage_ignores_decode_error subscribed transactions src bvlc err :
  err <> Some ErrNotBAcnetIP ->
  handleMessage subscribed transactions src bvlc err
  = handleMessage subscribed transactions src bvlc None.
Proof. destruct err as [[| |] |]; [congruence | reflexivity ..]. Qed.

Lemma handleMessage_ignores_decode_error_witness :
  Some ErrTruncated <> Some ErrNotBAcnetIP /\
  handleMessage true ∅ (scenario.frame PayloadNil None x05).2
    (scenario.frame PayloadNil None x05).1 (Some ErrTruncated)
  = handleMessage true ∅ (scenario.frame PayloadNil None x05).2
      (scenario.frame PayloadNil None x05).1 None.
Proof.
  split; [discriminate |].
  apply (handleMessage_ignores_decode_error true ∅). discriminate.
Defined.

(** X16. [handleMessage] does not look at the payload before delivering:
    an Error reply whose payload is not an error payload, left by a
    decoder that failed after reading the header, is sent to the
    transaction registered under its invoke id, and the [ReadProperty]
    call waiting on it panics. *)
Theorem handleMessage_delivers_unchecked subscribed transactions src bvlc err
    (apdu : APDU) (c : Client) (send : NPDU -> result error Z)
    (device : bacnet.Device) (readProp : ReadProperty) :
  err <> Some ErrNotBAcnetIP ->
  ADPU (NPDU_ bvlc) = Some apdu ->
  DataType apdu = Error ->
  (forall e, Payload_ apdu <> PayloadApduError e) ->
  transactions !! InvokeID apdu = Some TxReceiving ->
  is_Ok (send (ReadProperty_npdu c (InvokeID apdu) device readProp)) ->
  Deliver (InvokeID apdu) apdu
    ∈ (handleMessage subscribed transactions src bvlc err).1 /\
  (handleMessage subscribed transactions src bvlc err).2 = None /\
  ReadProperty_ c send (InvokeID apdu) device readProp (Delivered apdu)
    = Panic.
Proof.
  intros Herr Ha Hdt Hp Htx Hsend.
  assert (Hrep : bool_decide (DataType apdu = ComplexAck)
                 || bool_decide (DataType apdu = SimpleAck)
                 || bool_decide (DataType apdu = Error) = true)
    by (apply is_reply_test; unfold spec.is_reply; auto).
  assert (Hrun : handleMessage subscribed transactions src bvlc err
                 = ((if subscribed then [Notify bvlc src] else [])
                      ++ [Deliver (InvokeID apdu) apdu], None)).
  { unfold handleMessage. rewrite Ha, Hrep, Htx.
    destruct err as [[| |] |]; [congruence | reflexivity ..]. }
  rewrite Hrun. cbn [fst snd].
  split; [| split; [reflexivity |]].
  - rewrite elem_of_app, list_elem_of_singleton. auto.
  - unfold ReadProperty_, ReadProperty_reply.
    destruct (send _); [| contradiction].
    rewrite Hdt. rewrite bool_decide_eq_true_2 by reflexivity.
    destruct (Payload_ apdu) as [| | | | | e]; try reflexivity.
    now destruct (Hp e).
Qed.

Lemma handleMessage_delivers_unchecked_witness :
  let apdu := {| DataType := Error;
                 ServiceType_ := ServiceConfirmedReadProperty;
                 InvokeID := 3; Payload_ := PayloadNil |} in
  let bvlc := {| BVLC_Type := TypeBacnetIP; Function_ := BacFuncUnicast;
                 NPDU_ := {| Version := Version1;
                             IsNetworkLayerMessage := false;
                             ExpectingReply := false; Priority := Normal;
                             Destination := None; Source := None;
                             HopCount := 0; ADPU := Some apdu |} |} in
  let src := {| net.IP_ := [xc0; x00; x02; x05]; net.Port := 47808;
                net.Zone := "" |} in
  let c := {| ipAddress := [xc0; x00; x02; x01];
              broadcastAddress := [xc0; x00; x02; xff]; udpPort := 47808 |} in
  let device := scenario.device 1234 x05 in
  let readProp := {| RP_ObjectID := {| bacnet.Type_ := bacnet.AnalogInput;
                                       bacnet.Instance := 1 |};
                     RP_Property := {| bacnet.PropertyType_ := 85;
                                       bacnet.ArrayIndex := None |};
                     Data := Null |} in
  Deliver 3 apdu
    ∈ (handleMessage false {[ 3 := TxReceiving ]} src bvlc (Some ErrTruncated)).1 /\
  (handleMessage false {[ 3 := TxReceiving ]} src bvlc (Some ErrTruncated)).2
    = None /\
  ReadProperty_ c scenario.socket_ok 3 device readProp (Delivered apdu) = Panic.
Proof.
  intros apdu bvlc src c device readProp.
  apply (handleMessage_delivers_unchecked false {[ 3 := TxReceiving ]} src bvlc
           (Some ErrTruncated) apdu c scenario.socket_ok device readProp).
  - discriminate.
  - reflexivity.
  - reflexivity.
  - intros e. discriminate.
  - reflexivity.
  - exact I.
Defined.

(** X25. [handleMessage] returns an error in two cases only: the decoder
    failed with not-BACnet/IP, or the frame is a reply (complex-ack,
    simple-ack, error) and no transaction takes it, none being registered
    under its invoke id or the registered one being done.  Requests and
    frames without an APDU never produce an error. *)
Theorem handleMessage_error_iff subscribed transactions src bvlc err :
  (handleMessage subscribed transactions src bvlc err).2 <> None
  <->
  err = Some ErrNotBAcnetIP \/
  exists apdu, ADPU (NPDU_ bvlc) = Some apdu /\ spec.is_reply apdu /\
               transactions !! InvokeID apdu <> Some TxReceiving.
Proof.
  unfold handleMessage.
  destruct err as [[| |] |]; cbn [snd]; [intuition congruence | ..].
  all: destruct (ADPU (NPDU_ bvlc)) as [a |] eqn:Ha; cbn [snd];
    [| split; [congruence | intros [[=] | (x & [=] & _)]]].
  all: pose proof (is_reply_test a) as Hr; destruct (_ || _);
    [destruct (transactions !! InvokeID a) as [[| e] |] eqn:Htx |];
    cbn [snd]; split;
    try congruence;
    try (intros _; right; exists a; intuition congruence);
    try (intros [[=] | (x & [= <-] & Hx & Hne)]; intuition congruence).
Qed.

End Dispatch.

(** ** The discovered set *)
Section Discovery_more.

Import bacip.

Implicit Types (data : WhoIs) (set : gmap Iam bacnet.Address).
Implicit Types (r : BVLC * net.UDPAddr) (frames : list (BVLC * net.UDPAddr)).

Lemma WhoIs_loop_app data frames1 frames2 set :
  WhoIs_loop data set (frames1 ++ frames2) =
    match WhoIs_loop data set frames1 with
    | Ok set' => WhoIs_loop data set' frames2
    | Err e => Err e
    end.
Proof.
  revert set. induction frames1 as [| r frames1 IH]; intros set; cbn;
    [reflexivity |].
  destruct (WhoIs_receive data set r); [apply IH | reflexivity].
Qed.

(** Frames that do not announce [iam] leave its entry as it is. *)
Lemma WhoIs_loop_preserve data frames set set' iam :
  WhoIs_loop data set frames = Ok set' ->
  (forall r, r ∈ frames -> spec.announced r <> Some iam) ->
  set' !! iam = set !! iam.
Proof.
  revert set. induction frames as [| r frames IH]; intros set; cbn.
  - now intros [= ->].
  - destruct (spec.unexpected_payload r) eqn:Hr.
    + pose proof (WhoIs_receive_unexpected data set r Hr) as Herr.
      destruct (WhoIs_receive data set r); cbn in Herr; [tauto | discriminate].
    + rewrite (WhoIs_receive_expected data set r Hr).
      intros Hloop Hother.
      rewrite (IH _ Hloop) by (intros r' Hr'; apply Hother; now right).
      pose proof (Hother r ltac:(left)) as Hne.
      destruct (spec.announced r) as [iam' |]; [| reflexivity].
      destruct (spec.in_range data iam'); [| reflexivity].
      apply lookup_insert_ne. congruence.
Qed.

Lemma WhoIs_loop_size data frames set set' :
  WhoIs_loop data set frames = Ok set' ->
  (size set' <= size set + length frames)%nat.
Proof.
  revert set. induction frames as [| r frames IH]; intros set;
    cbn [WhoIs_loop length].
  - intros [= ->]. lia.
  - destruct (spec.unexpected_payload r) eqn:Hr.
    + pose proof (WhoIs_receive_unexpected data set r Hr) as Herr.
      destruct (WhoIs_receive data set r); cbn in Herr; [tauto | discriminate].
    + rewrite (WhoIs_receive_expected data set r Hr).
      intros Hloop. apply IH in Hloop.
      destruct (spec.announced r) as [iam' |]; [| lia].
      destruct (spec.in_range data iam'); [| lia].
      rewrite map_size_insert in Hloop.
      destruct (set !! iam'); unfold id in Hloop; lia.
Qed.

Lemma WhoIs_receive_unclassified data set r :
  spec.classified_IAm r = false -> WhoIs_receive data set r = Ok set.
Proof.
  unfold spec.classified_IAm, WhoIs_receive.
  destruct (ADPU (NPDU_ r.1)) as [[dt st inv p] |]; [| reflexivity].
  cbn [DataType ServiceType_].
  destruct dt, st; classify; try discriminate; reflexivity.
Qed.

Lemma Iam_of_device_of (iam : Iam) (addr : bacnet.Address) :
  spec.Iam_of_device (spec.device_of iam addr) = iam.
Proof. now destruct iam. Qed.

Lemma WhoIs_result_device_of set :
  WhoIs_result set = (fun p => spec.device_of p.1 p.2) <$> map_to_list set.
Proof.
  unfold WhoIs_result. apply list_fmap_ext. now intros i [iam addr] _.
Qed.

(** X17. Deduplication: no two devices of the returned slice were built
    from the same IAm record, however many frames announced it. *)
Theorem WhoIs_dedup (broadcast : NPDU -> result error Z) data frames
    (devices : list bacnet.Device) :
  WhoIs_ broadcast data frames = Ok devices ->
  NoDup (spec.Iam_of_device <$> devices).
Proof.
  intros Hok. destruct (WhoIs_Ok_inv _ _ _ _ Hok) as (set & _ & ->).
  rewrite WhoIs_result_device_of, <- list_fmap_compose.
  rewrite (list_fmap_ext _ fst (map_to_list set)).
  - apply NoDup_fst_map_to_list.
  - intros i [iam addr] _. apply Iam_of_device_of.
Qed.

Lemma WhoIs_dedup_witness :
  WhoIs_ scenario.socket_ok scenario.no_range
    [scenario.frame (PayloadIam (scenario.iam 1234)) None x05;
     scenario.frame (PayloadIam (scenario.iam 1234)) None x05;
     scenario.frame (PayloadIam (scenario.iam 1234)) None x06]
  = Ok [scenario.device 1234 x06] /\
  NoDup (spec.Iam_of_device <$> [scenario.device 1234 x06]).
Proof.
  assert (Hrun :
    WhoIs_ scenario.socket_ok scenario.no_range
      [scenario.frame (PayloadIam (scenario.iam 1234)) None x05;
       scenario.frame (PayloadIam (scenario.iam 1234)) None x05;
       scenario.frame (PayloadIam (scenario.iam 1234)) None x06]
    = Ok [scenario.device 1234 x06]) by (vm_compute; reflexivity).
  split; [exact Hrun |].
  exact (WhoIs_dedup _ _ _ _ Hrun).
Defined.

(** X18. The last announcement wins: when several received frames
    announce the same IAm record, the address recorded for the device is
    that of the UDP source of the last one (among those passing the range
    filter). *)
Theorem WhoIs_last_announcement (broadcast : NPDU -> result error Z) data
    frames r frames' (iam : Iam) (devices : list bacnet.Device) :
  WhoIs_ broadcast data (frames ++ r :: frames') = Ok devices ->
  spec.announced r = Some iam ->
  spec.in_range data iam = true ->
  (forall r', r' ∈ frames' -> spec.announced r' <> Some iam) ->
  forall d, d ∈ devices -> spec.Iam_of_device d = iam ->
            bacnet.Addr d = bacnet.AddressFromUDP r.2.
Proof.
  intros Hok Hann Hrng Hlast d Hd Hiam.
  destruct (WhoIs_Ok_inv _ _ _ _ Hok) as (set & Hloop & ->).
  apply elem_of_WhoIs_result in Hd. rewrite Hiam in Hd.
  rewrite WhoIs_loop_app in Hloop.
  destruct (WhoIs_loop data ∅ frames) as [set1 |] eqn:H1; [| discriminate].
  cbn [WhoIs_loop] in Hloop.
  destruct (spec.unexpected_payload r) eqn:Hr.
  { pose proof (WhoIs_receive_unexpected data set1 r Hr) as Herr.
    destruct (WhoIs_receive data set1 r); cbn in Herr; [tauto | discriminate]. }
  rewrite (WhoIs_receive_expected data set1 r Hr), Hann, Hrng in Hloop.
  rewrite (WhoIs_loop_preserve _ _ _ _ iam Hloop Hlast) in Hd.
  rewrite lookup_insert_eq in Hd. congruence.
Qed.

Lemma WhoIs_last_announcement_witness :
  WhoIs_ scenario.socket_ok scenario.no_range
    ([scenario.frame (PayloadIam (scenario.iam 1234)) None x05]
       ++ scenario.frame (PayloadIam (scenario.iam 1234)) None x06
       :: [scenario.frame (PayloadIam (scenario.iam 7)) None x05])
  = Ok [scenario.device 7 x05; scenario.device 1234 x06] /\
  bacnet.Addr (scenario.device 1234 x06)
  = bacnet.AddressFromUDP
      (scenario.frame (PayloadIam (scenario.iam 1234)) None x06).2.
Proof.
  assert (Hrun :
    WhoIs_ scenario.socket_ok scenario.no_range
      ([scenario.frame (PayloadIam (scenario.iam 1234)) None x05]
         ++ scenario.frame (PayloadIam (scenario.iam 1234)) None x06
         :: [scenario.frame (PayloadIam (scenario.iam 7)) None x05])
    = Ok [scenario.device 7 x05; scenario.device 1234 x06])
    by (vm_compute; reflexivity).
  split; [exact Hrun |].
  apply (WhoIs_last_announcement _ _ _ _ _ (scenario.iam 1234) _ Hrun).
  - reflexivity.
  - reflexivity.
  - intros r' Hr'. apply list_elem_of_singleton in Hr' as ->. discriminate.
  - right. left.
  - reflexivity.
Defined.

(** X19. The returned slice has at most one device per received frame. *)
Theorem WhoIs_size (broadcast : NPDU -> result error Z) data frames
    (devices : list bacnet.Device) :
  WhoIs_ broadcast data frames = Ok devices ->
  (length devices <= length frames)%nat.
Proof.
  intros Hok. destruct (WhoIs_Ok_inv _ _ _ _ Hok) as (set & Hloop & ->).
  unfold WhoIs_result. rewrite length_fmap, length_map_to_list.
  apply WhoIs_loop_size in Hloop. rewrite map_size_empty in Hloop. lia.
Qed.

Lemma WhoIs_size_witness :
  WhoIs_ scenario.socket_ok scenario.range_100_200
    [scenario.frame (PayloadIam (scenario.iam 50)) None x05;
     scenario.frame (PayloadIam (scenario.iam 150)) None x06]
  = Ok [scenario.device 150 x06] /\
  (length [scenario.device 150 x06] <= 2)%nat.
Proof.
  assert (Hrun :
    WhoIs_ scenario.socket_ok scenario.range_100_200
      [scenario.frame (PayloadIam (scenario.iam 50)) None x05;
       scenario.frame (PayloadIam (scenario.iam 150)) None x06]
    = Ok [scenario.device 150 x06]) by (vm_compute; reflexivity).
  split; [exact Hrun |].
  exact (WhoIs_size _ _ _ _ Hrun).
Defined.

(** X20. Frames that are not classified (unconfirmed-request, i-am), such
    as the replies and the requests of other clients that the dispatcher
    also passes to the subscription, have no effect on the outcome of a
    discovery. *)
Theorem WhoIs_ignores_other_frames (broadcast : NPDU -> result error Z)
    data frames :
  WhoIs_ broadcast data (List.filter spec.classified_IAm frames)
  = WhoIs_ broadcast data frames.
Proof.
  unfold WhoIs_. destruct (broadcast _); [| reflexivity].
  generalize (∅ : gmap Iam bacnet.Address).
  induction frames as [| r frames IH]; intros set; [reflexivity |].
  cbn [List.filter WhoIs_loop].
  destruct (spec.classified_IAm r) eqn:Hr; cbn [WhoIs_loop].
  - destruct (WhoIs_receive data set r); [apply IH | reflexivity].
  - rewrite (WhoIs_receive_unclassified data set r Hr). apply IH.
Qed.

End Discovery_more.

(** ** Confirmed requests *)
Section Requests.

Import bacip.

(** X21. [WriteProperty] on a delivered reply: it succeeds exactly on a
    simple-ack, whatever the service selector and the payload of the ack;
    it returns the typed protocol error exactly on an Error reply carrying
    an error payload; it panics exactly on an Error reply carrying any
    other payload. *)
Theorem WriteProperty_reply_cases (apdu : APDU) :
  (WriteProperty_reply apdu = Return (Ok tt) <-> DataType apdu = SimpleAck) /\
  (forall e, WriteProperty_reply apdu = Return (Err (errorApdu e)) <->
             DataType apdu = Error /\ Payload_ apdu = PayloadApduError e) /\
  (WriteProperty_reply apdu = Panic <->
   DataType apdu = Error /\ forall e, Payload_ apdu <> PayloadApduError e).
Proof.
  unfold WriteProperty_reply.
  destruct apdu as [dt st inv p]; cbn [DataType Payload_].
  destruct dt; classify; destruct p;
    repeat split; try discriminate; try congruence;
    try (intros [? ?]; congruence);
    try (intros [_ H]; exfalso; eapply H; reflexivity).
Qed.

(** X22. [ReadProperty] on a delivered reply: it returns a value exactly
    on a (complex-ack, read-property) reply carrying a read-property
    payload, the value being the payload's data; it panics exactly when
    the payload does not have the dynamic type the classification calls
    for. *)
Theorem ReadProperty_reply_cases (apdu : APDU) :
  (forall v, ReadProperty_reply apdu = Return (Ok v) <->
             DataType apdu = ComplexAck /\
             ServiceType_ apdu = ServiceConfirmedReadProperty /\
             exists rp, Payload_ apdu = PayloadReadProperty rp /\ Data rp = v) /\
  (ReadProperty_reply apdu = Panic <-> ~ spec.reply_payload_matches apdu).
Proof.
  unfold ReadProperty_reply, spec.reply_payload_matches.
  destruct apdu as [dt st inv p]; cbn [DataType ServiceType_ Payload_].
  destruct dt, st; classify; cbn [andb]; destruct p; split;
    try (intros v); split;
    try discriminate; try tauto;
    try (intros (? & ? & ?); discriminate);
    try (intros (_ & _ & rp & [=] & _); fail);
    try (intros [= <-]; eauto; fail);
    try (intros (_ & _ & rp & [= <-] & <-); reflexivity);
    try (intros _ [x [=]]; fail);
    try (intros H; exfalso; apply H; eauto; fail).
Qed.

(** X23. [send] makes no addressing check of its own: when marshalling
    succeeds and the destination of the NPDU is a malformed address, the
    frame is handed to the socket addressed to the zero [net.UDPAddr], and
    the call returns whatever that write returns, its error included. *)
Theorem send_malformed_destination
    (MarshalBinary : BVLC -> result error (list byte))
    (WriteToUDP : list byte -> net.UDPAddr -> result error Z)
    (npdu : NPDU) (dest : bacnet.Address) (bytes : list byte) :
  Destination npdu = Some dest ->
  spec.malformed_address dest = true ->
  MarshalBinary {| BVLC_Type := TypeBacnetIP; Function_ := BacFuncUnicast;
                   NPDU_ := npdu |} = Ok bytes ->
  send MarshalBinary WriteToUDP npdu
  = ([(bytes, net.zeroUDPAddr)], WriteToUDP bytes net.zeroUDPAddr).
Proof.
  intros Hdest Hbad Hm. unfold send. rewrite Hm, Hdest.
  now rewrite (UDPFromAddress_guards dest Hbad).
Qed.

Lemma send_malformed_destination_witness :
  let npdu := ReadProperty_npdu
                {| ipAddress := [xc0; x00; x02; x01];
                   broadcastAddress := [xc0; x00; x02; xff];
                   udpPort := 47808 |} 0
                {| bacnet.ID := {| bacnet.Type_ := 8; bacnet.Instance := 1 |};
                   bacnet.MaxApdu := 1476; bacnet.Segmentation := 0;
                   bacnet.Vendor := 260;
                   bacnet.Addr := {| bacnet.Mac := []; bacnet.Net := 0;
                                     bacnet.Adr := [] |} |}
                {| RP_ObjectID := {| bacnet.Type_ := 0; bacnet.Instance := 1 |};
                   RP_Property := {| bacnet.PropertyType_ := 85;
                                     bacnet.ArrayIndex := None |};
                   Data := Null |} in
  send (fun _ => Ok [x81; x0a]) (fun _ _ => Ok 2) npdu
  = ([([x81; x0a], net.zeroUDPAddr)], Ok 2).
Proof.
  intros npdu.
  apply (send_malformed_destination (fun _ => Ok [x81; x0a]) (fun _ _ => Ok 2)
           npdu {| bacnet.Mac := []; bacnet.Net := 0; bacnet.Adr := [] |});
    reflexivity.
Defined.

(** X24. Discovery then read: the [ReadProperty] request for a device
    returned by [WhoIs] is handed to the socket addressed to the IP and
    port a frame announcing that device was received from (the frames
    coming from UDP sources with 4 or 16 IP bytes and a 16-bit port). *)
Theorem ReadProperty_reaches_discovered
    (broadcast : NPDU -> result error Z) (data : WhoIs)
    (frames : list (BVLC * net.UDPAddr)) (devices : list bacnet.Device)
    (d : bacnet.Device)
    (MarshalBinary : BVLC -> result error (list byte))
    (WriteToUDP : list byte -> net.UDPAddr -> result error Z)
    (c : Client) (invokeID : Z) (readProp : ReadProperty) (bytes : list byte) :
  WhoIs_ broadcast data frames = Ok devices ->
  d ∈ devices ->
  (forall r, r ∈ frames ->
     (len (net.IP_ r.2) = 4 \/ len (net.IP_ r.2) = 16) /\
     0 <= net.Port r.2 < 2 ^ 16) ->
  MarshalBinary {| BVLC_Type := TypeBacnetIP; Function_ := BacFuncUnicast;
                   NPDU_ := ReadProperty_npdu c invokeID d readProp |}
    = Ok bytes ->
  exists r, r ∈ frames /\
    spec.announced r = Some (spec.Iam_of_device d) /\
    let addr := {| net.IP_ := net.IP_ r.2; net.Port := net.Port r.2;
                   net.Zone := "" |} in
    send MarshalBinary WriteToUDP (ReadProperty_npdu c invokeID d readProp)
    = ([(bytes, addr)], WriteToUDP bytes addr).
Proof.
  intros Hok Hd Hsrc Hm.
  destruct (WhoIs_Ok_inv _ _ _ _ Hok) as (set & Hloop & ->).
  apply elem_of_WhoIs_result in Hd.
  destruct (WhoIs_loop_lookup _ _ _ _ _ _ Hloop Hd)
    as [Hempty | (r & Hr & Hann & _ & Haddr)].
  { now rewrite lookup_empty in Hempty. }
  exists r. split; [assumption |]. split; [assumption |].
  destruct (Hsrc r Hr) as [Hlen Hport].
  unfold send. rewrite Hm. cbn [ReadProperty_npdu Destination].
  now rewrite Haddr, (UDP_roundtrip_any r.2 Hlen Hport).
Qed.

Lemma ReadProperty_reaches_discovered_witness :
  let c := {| ipAddress := [xc0; x00; x02; x01];
              broadcastAddress := [xc0; x00; x02; xff]; udpPort := 47808 |} in
  let readProp := {| RP_ObjectID := {| bacnet.Type_ := bacnet.AnalogInput;
                                       bacnet.Instance := 1 |};
                     RP_Property := {| bacnet.PropertyType_ := 85;
                                       bacnet.ArrayIndex := None |};
                     Data := Null |} in
  let frames := [scenario.frame (PayloadIam (scenario.iam 1234)) None x05] in
  exists r, r ∈ frames /\
    spec.announced r = Some (spec.Iam_of_device (scenario.device 1234 x05)) /\
    let addr := {| net.IP_ := net.IP_ r.2; net.Port := net.Port r.2;
                   net.Zone := "" |} in
    send (fun _ => Ok [x81; x0a]) (fun _ _ => Ok 2)
      (ReadProperty_npdu c 0 (scenario.device 1234 x05) readProp)
    = ([([x81; x0a], addr)], Ok 2).
Proof.
  intros c readProp frames.
  assert (Hrun : WhoIs_ scenario.socket_ok scenario.no_range frames
                 = Ok [scenario.device 1234 x05]) by (vm_compute; reflexivity).
  apply (ReadProperty_reaches_discovered scenario.socket_ok scenario.no_range
           frames _ (scenario.device 1234 x05)
           (fun _ => Ok [x81; x0a]) (fun _ _ => Ok 2) c 0 readProp [x81; x0a]
           Hrun).
  - apply list_elem_of_here.
  - intros r Hr. apply list_elem_of_singleton in Hr as ->.
    split; [left; reflexivity | cbn; unfold DefaultUDPPort; lia].
  - reflexivity.
Defined.

End Requests.
